(** * gnet: address parsing, setup paths, reactor dispatch and client teardown

  A shallow embedding of the Go sources [gnet.go], [options.go],
  [reactor_linux.go] and [client.go], and the properties of them that the
  specification states. *)

From Stdlib Require Import ZArith String Ascii List Lia Bool.
From Stdlib.Strings Require Byte.
From stdpp Require Import base option list gmap.

Local Open Scope string_scope.

(** ** Go's [strings] package, as far as [parseAddr] uses it

  A Go string is a sequence of bytes; [string] is a sequence of [ascii],
  which are bytes as well. *)

Module GoStrings.

(** [s[n:]] for [n <= len(s)]. *)
Fixpoint str_drop (n : nat) (s : string) : string :=
  match n, s with
  | O, _ => s
  | S _, EmptyString => EmptyString
  | S n', String _ s' => str_drop n' s'
  end.

(** [s[:n]] for [n <= len(s)]. *)
Fixpoint str_take (n : nat) (s : string) : string :=
  match n, s with
  | O, _ => EmptyString
  | S _, EmptyString => EmptyString
  | S n', String c s' => String c (str_take n' s')
  end.

(** [strings.Index(s, substr)]: the position of the first instance of
    [substr] in [s]; [None] stands for Go's [-1]. *)
Definition Index (s substr : string) : option nat := String.index 0 substr s.

(** [strings.Contains(s, substr)] is [Index(s, substr) >= 0]. *)
Definition Contains (s substr : string) : bool :=
  match Index s substr with Some _ => true | None => false end.

(** The loop of [strings.Count] for a non-empty [substr]:
    [i := Index(s, substr); if i == -1 { return n }; n++;
     s = s[i+len(substr):]].  Every round drops at least one byte, so
    [len(s)] rounds are enough (lemma [Count_loop_fuel]). *)
Fixpoint Count_loop (fuel : nat) (s substr : string) : nat :=
  match fuel with
  | O => O
  | S fuel' =>
      match Index s substr with
      | None => O
      | Some i =>
          S (Count_loop fuel' (str_drop (i + String.length substr) s) substr)
      end
  end.

Definition Count (s substr : string) : nat :=
  Count_loop (String.length s) s substr.

(** The loop of [strings.genSplit] with [sepSave = 0]; [n] is the number of
    rounds left ([for i < n]), the result is [a[:i+1]]. *)
Fixpoint genSplit_loop (n : nat) (s sep : string) : list string :=
  match n with
  | O => [s]
  | S n' =>
      match Index s sep with
      | None => [s]
      | Some m =>
          str_take m s
            :: genSplit_loop n' (str_drop (m + String.length sep) s) sep
      end
  end.

(** [strings.Split(s, sep)] for a non-empty [sep] (the only use in this
    repository is with ["://"]): [n = Count(s, sep) + 1], clamped to
    [len(s) + 1], and [n - 1] rounds of the loop. *)
Definition Split (s sep : string) : list string :=
  let n := Count s sep + 1 in
  let n := if Nat.ltb (String.length s + 1) n then String.length s + 1 else n in
  genSplit_loop (n - 1) s sep.

End GoStrings.

(** ** [gnet.go]: [parseAddr] *)

Module Addr.
Import GoStrings.

(** [parseAddr]; indexing a slice out of range panics in Go, so the result
    is an [option], [None] standing for the panic (lemma
    [parseAddr_total]: it never happens). *)
Definition parseAddr (addr : string) : option (string * string) :=
  let network := "tcp" in
  let address := addr in
  if Contains address "://" then
    network' ← Split address "://" !! 0%nat;
    address' ← Split address "://" !! 1%nat;
    Some (network', address')
  else Some (network, address).

(** The schemes the documentation of [Serve] lists. *)
Definition schemes : list string :=
  ["tcp"; "tcp4"; "tcp6"; "udp"; "udp4"; "udp6"; "unix"].

End Addr.

(** ** Shared vocabulary: errors, actions, events and the effect monad *)

Module Go.

(** A Go [error] value that is not [nil].  [errShutdown] is the one the
    shutdown protocol uses; any other is told apart by its message. *)
Inductive error :=
| errShutdown
| errorString (msg : string).

(** [[]byte]. *)
Definition bytes := list Byte.byte.

(** A call that returns [(value, err)] with [err == nil] exactly when the
    value is usable, as the calls of [net], [os] and [netpoll] do. *)
Inductive result (A : Type) :=
| Ok (a : A)
| Fail (e : error).
Arguments Ok {A} a.
Arguments Fail {A} e.

(** [internal.Job], a [func() error]. *)
Definition Job := unit -> option error.

End Go.

(** [gnet.go]: [Action].  The constructors carry the Go names, so they are
  read as [Action.None], [Action.Close] and [Action.Shutdown]. *)
Module Action.
Inductive t := None | Close | Shutdown.
End Action.

(** ** [options.go] *)

Module Opts.

Record Options := mkOptions {
  Multicore : bool;
  ReusePort : bool;
  Ticker : bool;
  TCPKeepAlive : Z;          (* time.Duration, an int64 of nanoseconds *)
  Codec : option nat         (* an ICodec, [None] for the nil interface *)
}.

(** [new(Options)]: every field at its zero value. *)
Definition zeroOptions : Options :=
  mkOptions false false false 0 None.

(** [type Option func(opts *Options)]: what it does to the pointed-to
    record. *)
Definition Option : Type := Options -> Options.

Definition initOptions (options : list Option) : Options :=
  fold_left (fun opts option => option opts) options zeroOptions.

Definition WithOptions (options : Options) : Option :=
  fun _ => options.

Definition WithMulticore (multicore : bool) : Option :=
  fun opts => mkOptions multicore (ReusePort opts) (Ticker opts)
                (TCPKeepAlive opts) (Codec opts).

Definition WithReusePort (reusePort : bool) : Option :=
  fun opts => mkOptions (Multicore opts) reusePort (Ticker opts)
                (TCPKeepAlive opts) (Codec opts).

Definition WithTCPKeepAlive (tcpKeepAlive : Z) : Option :=
  fun opts => mkOptions (Multicore opts) (ReusePort opts) (Ticker opts)
                tcpKeepAlive (Codec opts).

Definition WithTicker (ticker : bool) : Option :=
  fun opts => mkOptions (Multicore opts) (ReusePort opts) ticker
                (TCPKeepAlive opts) (Codec opts).

Definition WithCodec (codec : option nat) : Option :=
  fun opts => mkOptions (Multicore opts) (ReusePort opts) (Ticker opts)
                (TCPKeepAlive opts) codec.

End Opts.

(** ** Data of the engine *)

Module Data.
Import Go Opts.

(** [*os.File]; [Fd()] is its descriptor. *)
Record File := mkFile { Fd : Z }.

(** [gnet.go]: [type listener struct].  [ln] and [pconn] are interface
    values, [None] when nil; the handles behind them are opaque. *)
Record listener := mkListener {
  ln_ln : option nat;
  ln_lnaddr : option string;
  ln_pconn : option nat;
  ln_f : option File;
  ln_fd : Z;
  ln_network : string;
  ln_addr : string
}.

(** The dynamic type behind the [net.Conn] that [Connect] dials. *)
Inductive netConn :=
| UDPConn (h : nat)
| TCPConn (h : nat).

(** [gnet.go]: [type connection struct]. *)
Record connection := mkConnection {
  con_pconn : option netConn;
  con_f : option File;
  con_fd : Z;
  con_network : string;
  con_addr : string
}.

(** A [*ringbuffer.RingBuffer], by the bytes it holds. *)
Definition RingBuffer := bytes.

Definition IsEmpty (rb : RingBuffer) : bool :=
  match rb with [] => true | _ :: _ => false end.

(** The connection of a loop: the fields the reactors look at. *)
Record conn := mkConn {
  c_fd : Z;
  inboundBuffer : RingBuffer;
  outboundBuffer : RingBuffer
}.

(** The loop of a reactor, as [activateReactors] builds it: [idx],
    [poller] (an opaque handle) and [connections], a [map[int]*conn]. *)
Record loop := mkLoop {
  idx : Z;
  poller : nat;
  connections : gmap Z conn
}.

(** [client.go]: [type Client struct].  [mainLoop] and [conn] are pointers
    that are nil until [activateReactors] sets them; [connection] and
    [opts] are set by [connect] when it builds the client.  [once] is the
    state of the [sync.Once], [wg] the counter of the [sync.WaitGroup].
    The event handler is passed along with the client instead of being a
    field of it; [bytesPool], [cond] and [codec] hold no state that the
    modelled functions read. *)
Record Client := mkClient {
  cl_connection : connection;
  cl_opts : Options;
  cl_mainLoop : option loop;
  cl_wg : nat;
  cl_once : bool;
  cl_conn : option conn
}.

(** What a goroutine does that another part of the system can see, in
    the order it does it. *)
Inductive event :=
(* gnet.go *)
| EvRemoveAll (path : string)
| EvLogPrintln (e : error)
| EvListenerClose
| EvServe (ln : listener) (options : Options)
(* client.go *)
| EvOpenPoller
| EvAddRead (fd : Z)
| EvGoMainReactor
| EvLogPrintf (e : error)
| EvOnConnectionEstablished
| EvCondLock
| EvCondWait
| EvCondSignal
| EvCondUnlock
| EvTrigger (job : Job)
| EvWgWait
| EvPollerClose
| EvConnWrite (c : option conn) (b : bytes)
(* reactor_linux.go *)
| EvGoLoopTicker (idx : Z)
| EvLoopIn (c : conn)
| EvLoopOut (c : conn)
| EvLoopClientIn (c : conn)
| EvLoopClientOut (c : conn)
| EvAcceptNewConnection (fd : Z)
| EvServerSignalShutdown.

End Data.

(** ** The effect monad

  A function of the engine runs on a goroutine, over the object it
  mutates ([S]) and the events emitted so far.  It ends by returning, by
  blocking for good in a wait that is never answered, or by a run-time
  panic. *)

Module Eff.
Import Go Data.

Inductive outcome (S A : Type) :=
| Done (a : A) (s : S) (tr : list event)
| Parked (s : S) (tr : list event)
| Panicked (s : S) (tr : list event).
Arguments Done {S A} a s tr.
Arguments Parked {S A} s tr.
Arguments Panicked {S A} s tr.

Definition M (S A : Type) : Type := S -> list event -> outcome S A.

Definition trace_of {S A} (o : outcome S A) : list event :=
  match o with
  | Done _ _ tr | Parked _ tr | Panicked _ tr => tr
  end.

Definition state_of {S A} (o : outcome S A) : S :=
  match o with
  | Done _ s _ | Parked s _ | Panicked s _ => s
  end.

#[global] Instance M_ret {S} : MRet (M S) :=
  fun A a s tr => Done a s tr.

#[global] Instance M_bind {S} : MBind (M S) :=
  fun A B f m s tr =>
    match m s tr with
    | Done a s' tr' => f a s' tr'
    | Parked s' tr' => Parked s' tr'
    | Panicked s' tr' => Panicked s' tr'
    end.

Definition emit {S} (e : event) : M S unit :=
  fun s tr => Done tt s (tr ++ [e]).

Definition get {S} : M S S := fun s tr => Done s s tr.

Definition put {S} (s : S) : M S unit := fun _ tr => Done tt s tr.

Definition park {S A} : M S A := fun s tr => Parked s tr.

Definition panic {S A} : M S A := fun s tr => Panicked s tr.

(** Dereferencing a pointer: nil panics. *)
Definition deref {S A} (p : option A) : M S A :=
  match p with
  | Some a => mret a
  | None => panic
  end.

(** [defer d] written before [body]: [d] runs when [body] returns, and
    also when it panics, before the panic goes on; it does not run while
    [body] is blocked. *)
Definition defer {S A} (d : M S unit) (body : M S A) : M S A :=
  fun s tr =>
    match body s tr with
    | Done a s' tr' =>
        match d s' tr' with
        | Done _ s'' tr'' => Done a s'' tr''
        | Parked s'' tr'' => Parked s'' tr''
        | Panicked s'' tr'' => Panicked s'' tr''
        end
    | Parked s' tr' => Parked s' tr'
    | Panicked s' tr' =>
        match d s' tr' with
        | Done _ s'' tr'' => Panicked s'' tr''
        | Parked s'' tr'' => Parked s'' tr''
        | Panicked s'' tr'' => Panicked s'' tr''
        end
    end.

(** A function that builds its own object [init] and works on it; the
    caller keeps its state and sees the events. *)
Definition scope {S T A} (init : T) (m : M T A) : M S A :=
  fun s tr =>
    match m init tr with
    | Done a _ tr' => Done a s tr'
    | Parked _ tr' => Parked s tr'
    | Panicked _ tr' => Panicked s tr'
    end.

(** [gnet.go]: [sniffError]. *)
Definition sniffError {S} (err : option error) : M S unit :=
  match err with
  | Some e => emit (EvLogPrintln e)
  | None => mret tt
  end.

End Eff.

(** ** The world around the verified files *)

Module World.
Import Go Opts Data Eff.

(** The calls of [os], [net], [unix] and of [netpoll]'s listeners that
    [Serve] and [Connect] make, with what each returns; [ln.system] and
    the server orchestrator [serve] are functions of this repository in
    other files ([listener_unix.go], [server.go]), and are taken the same
    way. *)
Record Net := mkNet {
  os_RemoveAll : string -> option error;
  net_ListenPacket : string -> string -> result nat;
  netpoll_ReusePortListenPacket : string -> string -> result nat;
  net_Listen : string -> string -> result nat;
  netpoll_ReusePortListen : string -> string -> result nat;
  PacketConn_LocalAddr : nat -> string;
  Listener_Addr : nat -> string;
  listener_system : listener -> listener * option error;
  serve : listener -> Options -> option error;
  net_ResolveUDPAddr : string -> string -> result string;
  net_DialUDP : string -> string -> result nat;
  net_ResolveTCPAddr : string -> string -> result string;
  net_DialTCP : string -> string -> result nat;
  Conn_File : netConn -> result File;
  unix_SetNonblock : Z -> bool -> option error
}.

(** [gnet.go]: [type EventHandler interface], the callback [connect]
    fires. *)
Record EventHandler := mkEventHandler {
  OnConnectionEstablished : Client -> Action.t
}.

(** What surrounds the client: the poller (package [netpoll]), the
    constructor [newClientConn] and the method [conn.write] (files of this
    repository other than the four verified), and what the other goroutines do
    while this one waits.
    - [shutdown_signalled]: some goroutine runs [cl.cond.Signal] while
      this one is inside [cl.cond.Wait];
    - [reactors_finish]: the reactor goroutine returns and calls
      [cl.wg.Done], so that [cl.wg.Wait] comes back. *)
Record ClientEnv := mkClientEnv {
  netpoll_OpenPoller : result nat;
  newClientConn : Z -> conn;
  poller_Trigger : nat -> Job -> option error;
  poller_Close : nat -> option error;
  conn_write : option conn -> bytes -> M Client unit;
  shutdown_signalled : bool;
  reactors_finish : bool
}.

(** [netpoll.OutEvents] and [netpoll.InEvents], masks over the [uint32]
    event word; their values are declared in [netpoll]. *)
Record Netpoll := mkNetpoll {
  OutEvents : Z;
  InEvents : Z
}.

(** The methods of [loop] and [server] that the reactors dispatch to;
    they are defined in other files of the repository.  Each is given by what it
    does to the object of the reactor and the error it returns. *)
Record serverHandlers := mkServerHandlers {
  loopIn : conn -> loop -> loop * option error;
  loopOut : conn -> loop -> loop * option error;
  acceptNewConnection : Z -> loop -> loop * option error
}.

Record clientHandlers := mkClientHandlers {
  loopClientIn : conn -> Client -> Client * option error;
  loopClientOut : conn -> Client -> Client * option error
}.

(** Running such a method: the call is an event, then the method acts. *)
Definition act {S A} (f : S -> S * A) : M S A :=
  fun s tr => let '(s', a) := f s in Done a s' tr.

Definition invoke {S A} (e : event) (f : S -> S * A) : M S A :=
  emit e;; act f.

(** Modelled from the spec: [netpoll.Poller.Polling], the blocking wait
    call of the Readiness Notifier, over the descriptors that become
    ready ([ready], in order, each with its event mask): the callback is
    invoked once per ready descriptor, and the call keeps waiting until
    the callback returns a non-nil error, which it returns.  When nothing
    more becomes ready the goroutine stays blocked in the wait. *)
Fixpoint Polling {S} (callback : Z -> Z -> option Job -> M S (option error))
    (ready : list (Z * Z)) : M S error :=
  match ready with
  | [] => park
  | (fd, ev) :: ready' =>
      err ← callback fd ev None;
      match err with
      | Some e => mret e
      | None => Polling callback ready'
      end
  end.

End World.

(** ** [gnet.go]: [Serve] and [Connect]; [client.go] *)

Module Gnet.
Import GoStrings Addr Go Opts Data Eff World.

(** *** [client.go] *)


(** [cl.cond.Wait()]: comes back once the condition is signalled. *)
Definition cond_Wait (cenv : ClientEnv) : M Client unit :=
  emit EvCondWait;;
  if shutdown_signalled cenv then mret tt else park.

Definition Client_waitForShutdown (cenv : ClientEnv) : M Client unit :=
  emit EvCondLock;;
  cond_Wait cenv;;
  emit EvCondUnlock.

Definition set_once (cl : Client) : Client :=
  mkClient (cl_connection cl) (cl_opts cl) (cl_mainLoop cl) (cl_wg cl)
    true (cl_conn cl).

(** [cl.once.Do(f)]: [f] runs if no call of [Do] has run it before, and
    the [Once] is marked done when [f] comes back. *)
Definition once_Do (f : M Client unit) : M Client unit :=
  cl ← get;
  if cl_once cl then mret tt
  else defer (cl ← get; put (set_once cl)) f.

Definition Client_signalShutdown : M Client unit :=
  once_Do (emit EvCondLock;; emit EvCondSignal;; emit EvCondUnlock).

Definition set_mainLoop (lp : loop) (cl : Client) : Client :=
  mkClient (cl_connection cl) (cl_opts cl) (Some lp) (cl_wg cl)
    (cl_once cl) (cl_conn cl).

Definition set_conn (c : conn) (cl : Client) : Client :=
  mkClient (cl_connection cl) (cl_opts cl) (cl_mainLoop cl) (cl_wg cl)
    (cl_once cl) (Some c).

Definition set_wg (n : nat) (cl : Client) : Client :=
  mkClient (cl_connection cl) (cl_opts cl) (cl_mainLoop cl) n
    (cl_once cl) (cl_conn cl).

(** [go func() { cl.activateMainReactor(); cl.wg.Done() }()] is the event
    [EvGoMainReactor]: the reactor runs on its own goroutine. *)
Definition Client_activateReactors (cenv : ClientEnv)
    : M Client (option error) :=
  emit EvOpenPoller;;
  match netpoll_OpenPoller cenv with
  | Ok p =>
      cl ← get;
      let lp := mkLoop 0 p ∅ in
      emit (EvAddRead (con_fd (cl_connection cl)));;
      put (set_mainLoop lp cl);;
      cl ← get;
      let c := newClientConn cenv (con_fd (cl_connection cl)) in
      put (set_conn c cl);;
      cl ← get;
      lp ← deref (cl_mainLoop cl);
      put (set_mainLoop
             (mkLoop (idx lp) (poller lp)
                (<[con_fd (cl_connection cl) := c]> (connections lp))) cl);;
      cl ← get;
      put (set_wg (cl_wg cl + 1) cl);;
      emit EvGoMainReactor;;
      mret None
  | Fail err => mret (Some err)
  end.

Definition Client_start (cenv : ClientEnv) : M Client (option error) :=
  Client_activateReactors cenv.

(** [cl.wg.Wait()]: comes back at once when the counter is zero, and
    otherwise when the reactor goroutine has called [Done]. *)
Definition wg_Wait (cenv : ClientEnv) : M Client unit :=
  emit EvWgWait;;
  cl ← get;
  match cl_wg cl with
  | O => mret tt
  | S _ => if reactors_finish cenv then put (set_wg 0 cl) else park
  end.

Definition Client_stop (cenv : ClientEnv) : M Client unit :=
  Client_waitForShutdown cenv;;
  cl ← get;
  match cl_mainLoop cl with
  | Some lp =>
      emit (EvTrigger (fun _ => Some errShutdown));;
      sniffError (poller_Trigger cenv (poller lp) (fun _ => Some errShutdown))
  | None => mret tt
  end;;
  wg_Wait cenv;;
  cl ← get;
  match cl_mainLoop cl with
  | Some lp =>
      emit EvPollerClose;;
      sniffError (poller_Close cenv (poller lp))
  | None => mret tt
  end.

Definition Client_Close (cenv : ClientEnv) : M Client unit :=
  Client_stop cenv.

(** [new(Client)] with the fields [connect] assigns before [start]. *)
Definition newClient (connection : connection) (options : Options)
    : Client :=
  mkClient connection options None 0 false None.

Definition connect (cenv : ClientEnv) (eventHandler : EventHandler)
    (connection : connection) (options : Options)
    : M unit (option error) :=
  scope (newClient connection options)
    (err ← Client_start cenv;
     match err with
     | Some err => emit (EvLogPrintf err);; mret (Some err)
     | None =>
         defer (Client_stop cenv)
           (cl ← get;
            emit EvOnConnectionEstablished;;
            match OnConnectionEstablished eventHandler cl with
            | Action.None => mret None
            | Action.Shutdown => mret None
            | Action.Close => mret None
            end)
     end).

(** *** [gnet.go] *)

Definition zero_listener : listener :=
  mkListener None None None None 0 "" "".

Definition zero_connection : connection :=
  mkConnection None None 0 "" "".

Definition Serve (env : Net) (addr : string) (opts : list Option)
    : M unit (option error) :=
  defer (emit EvListenerClose)
    (let options := initOptions opts in
     '(network, address) ← deref (parseAddr addr);
     let ln := mkListener None None None None 0 network address in
     (if String.eqb (ln_network ln) "unix"
      then emit (EvRemoveAll (ln_addr ln));;
           sniffError (os_RemoveAll env (ln_addr ln))
      else mret tt);;
     let '(ln, err) :=
       if String.eqb (ln_network ln) "udp" then
         match (if ReusePort options
                then netpoll_ReusePortListenPacket env (ln_network ln) (ln_addr ln)
                else net_ListenPacket env (ln_network ln) (ln_addr ln)) with
         | Ok pc => (mkListener (ln_ln ln) (ln_lnaddr ln) (Some pc) (ln_f ln)
                       (ln_fd ln) (ln_network ln) (ln_addr ln), None)
         | Fail e => (ln, Some e)
         end
       else
         match (if ReusePort options
                then netpoll_ReusePortListen env (ln_network ln) (ln_addr ln)
                else net_Listen env (ln_network ln) (ln_addr ln)) with
         | Ok l => (mkListener (Some l) (ln_lnaddr ln) (ln_pconn ln) (ln_f ln)
                      (ln_fd ln) (ln_network ln) (ln_addr ln), None)
         | Fail e => (ln, Some e)
         end in
     match err with
     | Some err => mret (Some err)
     | None =>
         lnaddr ← match ln_pconn ln with
                  | Some pc => mret (PacketConn_LocalAddr env pc)
                  | None => l ← deref (ln_ln ln); mret (Listener_Addr env l)
                  end;
         let ln := mkListener (ln_ln ln) (Some lnaddr) (ln_pconn ln) (ln_f ln)
                     (ln_fd ln) (ln_network ln) (ln_addr ln) in
         let '(ln, err) := listener_system env ln in
         match err with
         | Some err => mret (Some err)
         | None => emit (EvServe ln options);; mret (serve env ln options)
         end
     end).

Definition Connect (env : Net) (cenv : ClientEnv)
    (eventHandler : EventHandler) (addr : string) (opts : list Option)
    : M unit (option error) :=
  let options := initOptions opts in
  '(network, address) ← deref (parseAddr addr);
  let con := mkConnection None None 0 network address in
  let dialed : error + connection :=
    if String.eqb (con_network con) "udp" then
      match net_ResolveUDPAddr env (con_network con) (con_addr con) with
      | Fail err => inl err
      | Ok addr =>
          match net_DialUDP env (con_network con) addr with
          | Fail err => inl err
          | Ok h => inr (mkConnection (Some (UDPConn h)) (con_f con)
                           (con_fd con) (con_network con) (con_addr con))
          end
      end
    else
      match net_ResolveTCPAddr env (con_network con) (con_addr con) with
      | Fail err => inl err
      | Ok addr =>
          match net_DialTCP env (con_network con) addr with
          | Fail err => inl err
          | Ok h => inr (mkConnection (Some (TCPConn h)) (con_f con)
                           (con_fd con) (con_network con) (con_addr con))
          end
      end in
  match dialed with
  | inl err => mret (Some err)
  | inr con =>
      let '(con, err) :=
        match con_pconn con with
        | Some c =>
            match Conn_File env c with
            | Ok f => (mkConnection (con_pconn con) (Some f) (con_fd con)
                         (con_network con) (con_addr con), None)
            | Fail e => (con, Some e)
            end
        | None => (con, None)
        end in
      match err with
      | Some err => mret (Some err)
      | None =>
          f ← deref (con_f con);
          let con := mkConnection (con_pconn con) (con_f con) (Fd f)
                       (con_network con) (con_addr con) in
          match unix_SetNonblock env (con_fd con) true with
          | Some err => mret (Some err)
          | None => connect cenv eventHandler con options
          end
      end
  end.

End Gnet.

(** ** [reactor_linux.go] *)

Module Reactor.
Import Go Opts Data Eff World Gnet.

(** [ev&mask != 0] on the event word. *)
Definition has_event (ev mask : Z) : bool :=
  negb (Z.eqb (Z.land ev mask) 0).

(** The callback that [Client.activateMainReactor] hands to
    [Polling]. *)
Definition Client_mainReactor_callback (np : Netpoll) (h : clientHandlers)
    (fd ev : Z) (job : option Job) : M Client (option error) :=
  cl ← get;
  mainLoop ← deref (cl_mainLoop cl);
  match connections mainLoop !! fd with
  | Some c =>
      match IsEmpty (outboundBuffer c) with
      | false =>
          if has_event ev (OutEvents np)
          then invoke (EvLoopClientOut c) (loopClientOut h c)
          else mret None
      | true =>
          if has_event ev (InEvents np)
          then invoke (EvLoopClientIn c) (loopClientIn h c)
          else mret None
      end
  | None => mret None
  end.

(** [Client.activateMainReactor]; [go cl.mainLoop.loopTicker()] is the
    event [EvGoLoopTicker]. *)
Definition Client_activateMainReactor (np : Netpoll) (h : clientHandlers)
    (ready : list (Z * Z)) : M Client unit :=
  defer Client_signalShutdown
    (cl ← get;
     mainLoop ← deref (cl_mainLoop cl);
     (if Z.eqb (idx mainLoop) 0 && Ticker (cl_opts cl)
      then emit (EvGoLoopTicker (idx mainLoop)) else mret tt);;
     _ ← Polling (Client_mainReactor_callback np h) ready;
     mret tt).

(** The callback that [server.activateMainReactor] hands to
    [Polling]. *)
Definition server_mainReactor_callback (h : serverHandlers)
    (fd ev : Z) (job : option Job) : M loop (option error) :=
  invoke (EvAcceptNewConnection fd) (acceptNewConnection h fd).

(** [server.activateMainReactor], on the accept loop;
    [svr.signalShutdown] is the event [EvServerSignalShutdown]. *)
Definition server_activateMainReactor (h : serverHandlers)
    (ready : list (Z * Z)) : M loop unit :=
  defer (emit EvServerSignalShutdown)
    (_ ← Polling (server_mainReactor_callback h) ready;
     mret tt).

(** The callback that [server.activateSubReactor] hands to
    [Polling]. *)
Definition server_subReactor_callback (np : Netpoll) (h : serverHandlers)
    (fd ev : Z) (job : option Job) : M loop (option error) :=
  lp ← get;
  match connections lp !! fd with
  | Some c =>
      match IsEmpty (outboundBuffer c) with
      | false =>
          if has_event ev (OutEvents np)
          then invoke (EvLoopOut c) (loopOut h c)
          else mret None
      | true =>
          if has_event ev (InEvents np)
          then invoke (EvLoopIn c) (loopIn h c)
          else mret None
      end
  | None => mret None
  end.

(** [server.activateSubReactor], on the worker loop [lp]; [svr_opts]
    is [svr.opts]. *)
Definition server_activateSubReactor (svr_opts : Options) (np : Netpoll)
    (h : serverHandlers) (ready : list (Z * Z)) : M loop unit :=
  defer (emit EvServerSignalShutdown)
    (lp ← get;
     (if Z.eqb (idx lp) 0 && Ticker svr_opts
      then emit (EvGoLoopTicker (idx lp)) else mret tt);;
     _ ← Polling (server_subReactor_callback np h) ready;
     mret tt).

End Reactor.

(** ** Observations on traces, used to state the properties *)

Module Obs.
Import Go Opts Data Eff World Gnet.
Local Open Scope list_scope.

Definition is_ticker_launch (e : event) : bool :=
  match e with EvGoLoopTicker _ => true | _ => false end.

(** How many ticker threads a trace launches. *)
Definition ticker_launches (tr : list event) : nat :=
  length (filter (fun e => is_ticker_launch e = true) tr).

Definition is_established (e : event) : bool :=
  match e with EvOnConnectionEstablished => true | _ => false end.

(** How many times a trace fires the connection-established callback. *)
Definition established_calls (tr : list event) : nat :=
  length (filter (fun e => is_established e = true) tr).

Definition is_signal (e : event) : bool :=
  match e with EvCondSignal => true | _ => false end.

(** How many times a trace signals the condition variable. *)
Definition cond_signals (tr : list event) : nat :=
  length (filter (fun e => is_signal e = true) tr).

(** The events by which a reactor is built or started: the poller is
    opened, the reactor goroutine is launched, or an orchestrator
    ([serve], [connect]) is entered, which shows by [EvServe] or by the
    first thing [connect] does, [EvOpenPoller]. *)
Definition is_reactor_start (e : event) : bool :=
  match e with
  | EvServe _ _ | EvOpenPoller | EvGoMainReactor => true
  | _ => false
  end.

Definition reactor_starts (tr : list event) : nat :=
  length (filter (fun e => is_reactor_start e = true) tr).

(** What [sniffError] leaves in the trace. *)
Definition logged (err : option error) : list event :=
  match err with
  | Some e => [EvLogPrintln e]
  | None => []
  end.

(** The listen call [Serve] makes for a network, an address and the
    options. *)
Definition listen_result (env : Net) (network address : string)
    (options : Options) : result nat :=
  if String.eqb network "udp" then
    if ReusePort options
    then netpoll_ReusePortListenPacket env network address
    else net_ListenPacket env network address
  else
    if ReusePort options
    then netpoll_ReusePortListen env network address
    else net_Listen env network address.

(** The listener [Serve] holds when that call has returned [h]. *)
Definition listening (env : Net) (network address : string) (h : nat)
    : listener :=
  if String.eqb network "udp"
  then mkListener None (Some (PacketConn_LocalAddr env h)) (Some h) None 0
         network address
  else mkListener (Some h) (Some (Listener_Addr env h)) None None 0
         network address.

(** A setup failure of [Serve]: the listen call fails, or it succeeds
    and [ln.system] fails to set the socket up. *)
Inductive ServeSetupFailure (env : Net) (network address : string)
    (options : Options) (e : error) : Prop :=
| ListenFails :
    listen_result env network address options = Fail e ->
    ServeSetupFailure env network address options e
| SystemFails (h : nat) :
    listen_result env network address options = Ok h ->
    snd (listener_system env (listening env network address h)) = Some e ->
    ServeSetupFailure env network address options e.

(** The resolution and the dial [Connect] makes for a network. *)
Definition resolve_result (env : Net) (network address : string)
    : result string :=
  if String.eqb network "udp"
  then net_ResolveUDPAddr env network address
  else net_ResolveTCPAddr env network address.

Definition dial_result (env : Net) (network raddr : string)
    : result netConn :=
  if String.eqb network "udp" then
    match net_DialUDP env network raddr with
    | Ok h => Ok (UDPConn h)
    | Fail e => Fail e
    end
  else
    match net_DialTCP env network raddr with
    | Ok h => Ok (TCPConn h)
    | Fail e => Fail e
    end.

(** A setup failure of [Connect]: the first of address resolution, dial,
    extraction of the descriptor ([File]) and [SetNonblock] that fails. *)
Inductive ConnectSetupFailure (env : Net) (network address : string)
    (e : error) : Prop :=
| ResolutionFails :
    resolve_result env network address = Fail e ->
    ConnectSetupFailure env network address e
| DialFails (raddr : string) :
    resolve_result env network address = Ok raddr ->
    dial_result env network raddr = Fail e ->
    ConnectSetupFailure env network address e
| FileFails (raddr : string) (c : netConn) :
    resolve_result env network address = Ok raddr ->
    dial_result env network raddr = Ok c ->
    Conn_File env c = Fail e ->
    ConnectSetupFailure env network address e
| SetNonblockFails (raddr : string) (c : netConn) (f : File) :
    resolve_result env network address = Ok raddr ->
    dial_result env network raddr = Ok c ->
    Conn_File env c = Ok f ->
    unix_SetNonblock env (Fd f) true = Some e ->
    ConnectSetupFailure env network address e.

(** What [Serve] does to a Unix socket path before it listens. *)
Definition removed (env : Net) (network address : string) : list event :=
  if String.eqb network "unix"
  then [EvRemoveAll address] ++ logged (os_RemoveAll env address)
  else [].

(** A computation that only adds events satisfying [P] to the trace. *)
Definition appends {S A} (P : event -> Prop) (m : M S A) : Prop :=
  forall s tr, exists new, trace_of (m s tr) = tr ++ new /\ Forall P new.

Definition not_ticker (e : event) : Prop := is_ticker_launch e = false.

Definition signal_body : list event :=
  [EvCondLock; EvCondSignal; EvCondUnlock].

(** The job [stop] injects. *)
Definition sentinel : Job := fun _ => Some errShutdown.

Definition waited : list event := [EvCondLock; EvCondWait; EvCondUnlock].

Definition injected (cenv : ClientEnv) (lp : loop) : list event :=
  [EvTrigger sentinel] ++ logged (poller_Trigger cenv (poller lp) sentinel).

Definition closed (cenv : ClientEnv) (lp : loop) : list event :=
  [EvPollerClose] ++ logged (poller_Close cenv (poller lp)).

(** The client as [activateReactors] leaves it when the poller opens. *)
Definition started_client (cenv : ClientEnv) (p : nat)
    (con : connection) (options : Options) : Client :=
  let c := newClientConn cenv (con_fd con) in
  mkClient con options (Some (mkLoop 0 p (<[con_fd con := c]> ∅))) 1 false
    (Some c).

(** Forgetting the object of an outcome, as [scope] does. *)
Definition forget {T A} (a : A) (o : outcome T unit) : outcome unit A :=
  match o with
  | Done _ _ t => Done a tt t
  | Parked _ t => Parked tt t
  | Panicked _ t => Panicked tt t
  end.

Definition not_established (e : event) : Prop := is_established e = false.

(** [n] calls of [m] in a row. *)
Fixpoint repeat_call {S} (n : nat) (m : M S unit) : M S unit :=
  match n with
  | O => mret tt
  | S n' => m;; repeat_call n' m
  end.

End Obs.

(** ** Sample values, for evaluating the functions on concrete inputs *)

Module Samples.
Import Go Opts Data Eff World.

(** Masks as on Linux: [EPOLLOUT], resp. [EPOLLIN | EPOLLPRI], with
    [EPOLLERR | EPOLLHUP | EPOLLRDHUP]. *)
Definition sample_netpoll : Netpoll := mkNetpoll 8220 8219.

Definition EPOLLIN : Z := 1.
Definition EPOLLOUT : Z := 4.

(** Handlers that succeed and leave the reactor's object as it is. *)
Definition quiet_serverHandlers : serverHandlers :=
  mkServerHandlers (fun _ lp => (lp, None)) (fun _ lp => (lp, None))
    (fun _ lp => (lp, None)).

Definition quiet_clientHandlers : clientHandlers :=
  mkClientHandlers (fun _ cl => (cl, None)) (fun _ cl => (cl, None)).

(** An accept that fails, as [accept(2)] does when descriptors run out. *)
Definition failing_accept : serverHandlers :=
  mkServerHandlers (fun _ lp => (lp, None)) (fun _ lp => (lp, None))
    (fun _ lp => (lp, Some (errorString "too many open files"))).

(** A connection on descriptor 7 with two bytes waiting to be written. *)
Definition busy_conn : conn := mkConn 7 [] [Byte.x68; Byte.x69].

(** A connection on descriptor 7 with nothing to write. *)
Definition idle_conn : conn := mkConn 7 [] [].

Definition sample_loop (c : conn) : loop := mkLoop 0 3 {[ c_fd c := c ]}.

Definition empty_loop : loop := mkLoop (-1) 3 ∅.

Definition sample_connection : connection :=
  mkConnection (Some (UDPConn 1)) (Some (mkFile 7)) 7 "udp" "127.0.0.1:5555".

Definition sample_client (c : conn) : Client :=
  mkClient sample_connection (WithTicker true zeroOptions)
    (Some (sample_loop c)) 1 false (Some c).

(** A network on which every call succeeds, except that listening fails
    when [listen_ok] is off and address resolution fails when
    [resolve_ok] is off. *)
Definition sample_net (listen_ok resolve_ok : bool) : Net :=
  let listen := fun (_ _ : string) =>
    if listen_ok then Ok 2%nat
    else Fail (errorString "address already in use") in
  let resolve := fun (_ a : string) =>
    if resolve_ok then Ok a else Fail (errorString "no such host") in
  {| os_RemoveAll := fun _ => None;
     net_ListenPacket := listen;
     netpoll_ReusePortListenPacket := listen;
     net_Listen := listen;
     netpoll_ReusePortListen := listen;
     PacketConn_LocalAddr := fun _ => "0.0.0.0:0";
     Listener_Addr := fun _ => "0.0.0.0:0";
     listener_system := fun ln => (ln, None);
     serve := fun _ _ => None;
     net_ResolveUDPAddr := resolve;
     net_DialUDP := fun _ _ => Ok 1%nat;
     net_ResolveTCPAddr := resolve;
     net_DialTCP := fun _ _ => Ok 1%nat;
     Conn_File := fun _ => Ok (mkFile 7);
     unix_SetNonblock := fun _ _ => None |}.

Definition shutdown_handler : EventHandler :=
  mkEventHandler (fun _ => Action.Shutdown).

Definition none_handler : EventHandler :=
  mkEventHandler (fun _ => Action.None).

(** A client whose poller opens and works, while no other goroutine
    asks for shutdown and the reactor keeps running. *)
Definition idle_clientEnv : ClientEnv :=
  mkClientEnv (Ok 3%nat) (fun fd => mkConn fd [] [])
    (fun _ _ => None) (fun _ => None) (fun _ _ => mret tt) false false.

(** The same, but shutdown is signalled while the caller waits and the
    reactor goroutine then finishes. *)
Definition finishing_clientEnv : ClientEnv :=
  mkClientEnv (Ok 3%nat) (fun fd => mkConn fd [] [])
    (fun _ _ => None) (fun _ => None) (fun _ _ => mret tt) true true.

End Samples.

(** ** Further observations: options, listeners, client states *)

Module More.
Import GoStrings Addr Go Opts Data Eff World Gnet Reactor Obs.
Local Open Scope list_scope.

(** The fields of [Options]. *)
Inductive field := FMulticore | FReusePort | FTicker | FTCPKeepAlive | FCodec.

(** [setter s f]: the option [s] is one of the five setters of
    [options.go], and it assigns the field [f]. *)
Inductive setter : Opts.Option -> field -> Prop :=
| setter_Multicore (b : bool) : setter (WithMulticore b) FMulticore
| setter_ReusePort (b : bool) : setter (WithReusePort b) FReusePort
| setter_Ticker (b : bool) : setter (WithTicker b) FTicker
| setter_TCPKeepAlive (d : Z) : setter (WithTCPKeepAlive d) FTCPKeepAlive
| setter_Codec (c : option nat) : setter (WithCodec c) FCodec.


Definition is_listener_close (e : event) : bool :=
  match e with EvListenerClose => true | _ => false end.

(** How many times a trace closes the listener. *)
Definition listener_closes (tr : list event) : nat :=
  length (filter (fun e => is_listener_close e = true) tr).

Definition is_remove_all (e : event) : bool :=
  match e with EvRemoveAll _ => true | _ => false end.

(** How many times a trace removes a file-system path. *)
Definition path_removals (tr : list event) : nat :=
  length (filter (fun e => is_remove_all e = true) tr).

(** The same network, with another outcome of [os.RemoveAll]. *)
Definition with_RemoveAll (f : string -> option error) (env : Net) : Net :=
  {| os_RemoveAll := f;
     net_ListenPacket := net_ListenPacket env;
     netpoll_ReusePortListenPacket := netpoll_ReusePortListenPacket env;
     net_Listen := net_Listen env;
     netpoll_ReusePortListen := netpoll_ReusePortListen env;
     PacketConn_LocalAddr := PacketConn_LocalAddr env;
     Listener_Addr := Listener_Addr env;
     listener_system := listener_system env;
     serve := serve env;
     net_ResolveUDPAddr := net_ResolveUDPAddr env;
     net_DialUDP := net_DialUDP env;
     net_ResolveTCPAddr := net_ResolveTCPAddr env;
     net_DialTCP := net_DialTCP env;
     Conn_File := Conn_File env;
     unix_SetNonblock := unix_SetNonblock env |}.

(** What [Serve] does after the Unix socket path is dealt with: the value
    it returns and the events before the listener is closed. *)
Definition Serve_tail (env : Net) (network address : string)
    (options : Options) : option error * list event :=
  match listen_result env network address options with
  | Fail e => (Some e, [])
  | Ok h =>
      match listener_system env (listening env network address h) with
      | (_, Some e) => (Some e, [])
      | (ln, None) => (serve env ln options, [EvServe ln options])
      end
  end.

Definition is_shutdown_signal (e : event) : bool :=
  match e with EvServerSignalShutdown => true | _ => false end.

(** How many times a trace fires the shutdown signal of the server. *)
Definition server_signals (tr : list event) : nat :=
  length (filter (fun e => is_shutdown_signal e = true) tr).

Definition not_server_signal (e : event) : Prop :=
  is_shutdown_signal e = false.

Definition not_cond_signal (e : event) : Prop := is_signal e = false.




(** A handler that never returns an error. *)
Definition never_fails {S} (f : conn -> S -> S * option error) : Prop :=
  forall c s, snd (f c s) = None.

End More.

(** * Properties *)

(** ** Facts about the model of Go's [strings] *)

Module GoStringsFacts.
Import GoStrings.

Example Split_ex1 : Split "tcp://a://b" "://" = ["tcp"; "a"; "b"].
Proof. reflexivity. Qed.

Example Split_ex2 : Split "127.0.0.1:80" "://" = ["127.0.0.1:80"].
Proof. reflexivity. Qed.

Example Split_ex3 : Split "://" "://" = [""; ""].
Proof. reflexivity. Qed.

Lemma append_nil (b : string) : "" ++ b = b.
Proof. reflexivity. Qed.

Lemma append_cons (c : ascii) (a b : string) :
  String c a ++ b = String c (a ++ b).
Proof. reflexivity. Qed.

Ltac app_norm := rewrite ?append_cons, ?append_nil.

Lemma length_str_drop (n : nat) (s : string) :
  String.length (str_drop n s) = String.length s - n.
Proof.
  revert s; induction n as [|n IH]; intros [|c s]; simpl; auto with arith.
Qed.

Lemma str_take_app (a r : string) : str_take (String.length a) (a ++ r) = a.
Proof.
  induction a as [|c a IH]; app_norm; simpl; [now destruct r | now rewrite IH].
Qed.

Lemma str_drop_app (a r : string) : str_drop (String.length a) (a ++ r) = r.
Proof. induction a as [|c a IH]; app_norm; simpl; auto. Qed.

Lemma str_drop_add (n m : nat) (s : string) :
  str_drop (n + m) s = str_drop m (str_drop n s).
Proof.
  revert s; induction n as [|n IH]; intros s; simpl; auto.
  destruct s; simpl; auto. now destruct m.
Qed.

Lemma length_app (a b : string) :
  String.length (a ++ b) = String.length a + String.length b.
Proof. induction a; app_norm; simpl; auto. Qed.

(** [String.prefix] read as a decomposition. *)
Lemma prefix_true_app (p s : string) :
  String.prefix p s = true -> s = p ++ str_drop (String.length p) s.
Proof.
  revert s; induction p as [|c p IH]; intros [|d s] H; simpl in H;
    try reflexivity; try discriminate.
  destruct (ascii_dec c d) as [->|]; [|discriminate].
  app_norm; simpl. f_equal. now apply IH.
Qed.

Lemma prefix_app_l (p s u : string) :
  String.prefix p s = true -> String.prefix p (s ++ u) = true.
Proof.
  revert s; induction p as [|c p IH]; intros [|d s] H; simpl in H;
    app_norm; try discriminate.
  - now destruct u.
  - reflexivity.
  - simpl. destruct (ascii_dec c d); [now apply IH | discriminate].
Qed.

Lemma str_take_drop (n : nat) (s : string) : s = str_take n s ++ str_drop n s.
Proof.
  revert s; induction n as [|n IH]; intros [|c s]; simpl; app_norm; auto.
  now rewrite <- IH.
Qed.

Lemma Index_cons (sep : string) (c : ascii) (s : string) :
  Index (String c s) sep =
    if String.prefix sep (String c s) then Some 0
    else match Index s sep with Some n => Some (S n) | None => None end.
Proof. reflexivity. Qed.

(** A match found by [Index] lies inside the string. *)
Lemma Index_Some_bound (s sep : string) (m : nat) :
  Index s sep = Some m -> m + String.length sep <= String.length s.
Proof.
  revert m; induction s as [|c s IH]; intros m H.
  - unfold Index in H; simpl in H. destruct sep; [|discriminate].
    injection H as <-. simpl; lia.
  - rewrite Index_cons in H.
    destruct (String.prefix sep (String c s)) eqn:Hp.
    + injection H as <-. apply prefix_true_app in Hp.
      apply (f_equal String.length) in Hp. rewrite length_app in Hp. lia.
    + destruct (Index s sep) as [n|] eqn:Hi; [|discriminate].
      injection H as <-. specialize (IH n eq_refl). simpl; lia.
Qed.

(** What [Index] returns is the first instance: the string splits around
    it, and the part before holds no instance. *)
Lemma Index_Some_split (s sep : string) (m : nat) :
  Index s sep = Some m ->
  s = str_take m s ++ sep ++ str_drop (m + String.length sep) s
  /\ (sep <> "" -> Index (str_take m s) sep = None).
Proof.
  revert m; induction s as [|c s IH]; intros m H.
  - unfold Index in H; simpl in H. destruct sep; [|discriminate].
    injection H as <-. split; [reflexivity | congruence].
  - rewrite Index_cons in H.
    destruct (String.prefix sep (String c s)) eqn:Hp.
    + injection H as <-. split.
      * simpl str_take. app_norm. now apply prefix_true_app.
      * intros Hne. destruct sep; [congruence | reflexivity].
    + destruct (Index s sep) as [n|] eqn:Hi; [|discriminate].
      injection H as <-. destruct (IH n eq_refl) as [Hs Hn]. split.
      * simpl. app_norm. f_equal. exact Hs.
      * intros Hne. simpl str_take. rewrite Index_cons, (Hn Hne).
        destruct (String.prefix sep (String c (str_take n s))) eqn:Hq;
          [|reflexivity].
        apply (prefix_app_l _ _ (str_drop n s)) in Hq.
        rewrite append_cons, <- str_take_drop in Hq. congruence.
Qed.

Lemma Index_empty (sep : string) : sep <> "" -> Index "" sep = None.
Proof. destruct sep; [congruence | reflexivity]. Qed.

Lemma length_zero (s : string) : String.length s = 0 -> s = "".
Proof. destruct s; [reflexivity | discriminate]. Qed.

(** Any fuel of at least [len(s)] gives [Count_loop] the same result: the
    loop of [strings.Count] has ended by then. *)
Lemma Count_loop_fuel (sep : string) (f1 f2 : nat) (s : string) :
  sep <> "" -> String.length s <= f1 -> String.length s <= f2 ->
  Count_loop f1 s sep = Count_loop f2 s sep.
Proof.
  intros Hne. revert f2 s.
  induction f1 as [|f1 IH]; intros f2 s H1 H2.
  - assert (s = "") as -> by (apply length_zero; lia).
    destruct f2; simpl; [reflexivity | now rewrite Index_empty].
  - destruct f2 as [|f2].
    + assert (s = "") as -> by (apply length_zero; lia).
      simpl. now rewrite Index_empty.
    + simpl. destruct (Index s sep) as [i|] eqn:Hi; [|reflexivity].
      f_equal. pose proof (Index_Some_bound _ _ _ Hi) as Hb.
      assert (0 < String.length sep)
        by (destruct sep; [congruence | simpl; lia]).
      apply IH; rewrite length_str_drop; lia.
Qed.

Lemma Count_Some (s sep : string) (m : nat) :
  sep <> "" -> Index s sep = Some m ->
  Count s sep = S (Count (str_drop (m + String.length sep) s) sep).
Proof.
  intros Hne Hi. unfold Count.
  pose proof (Index_Some_bound _ _ _ Hi) as Hb.
  assert (0 < String.length sep) by (destruct sep; [congruence | simpl; lia]).
  destruct (String.length s) as [|n] eqn:Hl; [lia|].
  simpl. rewrite Hi. f_equal.
  apply Count_loop_fuel; trivial; rewrite length_str_drop; lia.
Qed.

Lemma Count_None (s sep : string) : Index s sep = None -> Count s sep = 0.
Proof.
  intros Hi. unfold Count. destruct (String.length s); simpl;
    [reflexivity | now rewrite Hi].
Qed.

Lemma Count_loop_le (sep : string) (f : nat) (s : string) :
  sep <> "" -> String.length s <= f -> Count_loop f s sep <= String.length s.
Proof.
  intros Hne. revert s. induction f as [|f IH]; intros s Hl; simpl; [lia|].
  destruct (Index s sep) as [i|] eqn:Hi; [|lia].
  pose proof (Index_Some_bound _ _ _ Hi) as Hb.
  assert (0 < String.length sep) by (destruct sep; [congruence | simpl; lia]).
  specialize (IH (str_drop (i + String.length sep) s)).
  rewrite length_str_drop in IH. lia.
Qed.

(** The clamp of [genSplit] never bites for a non-empty separator. *)
Lemma Split_eq (s sep : string) :
  sep <> "" -> Split s sep = genSplit_loop (Count s sep) s sep.
Proof.
  intros Hne. unfold Split.
  pose proof (Count_loop_le sep (String.length s) s Hne (le_n _)) as Hc.
  fold (Count s sep) in Hc.
  destruct (Nat.ltb_spec (String.length s + 1) (Count s sep + 1)); [lia|].
  f_equal. lia.
Qed.

Lemma Split_None (s sep : string) :
  sep <> "" -> Index s sep = None -> Split s sep = [s].
Proof.
  intros Hne Hi. rewrite Split_eq, (Count_None _ _ Hi); trivial.
Qed.

Lemma Split_Some (s sep : string) (m : nat) :
  sep <> "" -> Index s sep = Some m ->
  Split s sep =
    str_take m s :: Split (str_drop (m + String.length sep) s) sep.
Proof.
  intros Hne Hi. rewrite !Split_eq, (Count_Some _ _ _ Hne Hi); trivial.
  simpl. now rewrite Hi.
Qed.

(** No instance of ["://"] can straddle the end of a string that holds
    none and a ["://"] that follows it: the first instance in
    [a ++ "://" ++ r] is the one written. *)
Lemma prefix_nil (s : string) : String.prefix "" s = true.
Proof. now destruct s. Qed.

Lemma prefix_cons (a b : ascii) (p s : string) :
  String.prefix (String a p) (String b s) =
    if ascii_dec a b then String.prefix p s else false.
Proof. reflexivity. Qed.

Lemma prefix_cons_nil (a : ascii) (p : string) :
  String.prefix (String a p) "" = false.
Proof. reflexivity. Qed.

Lemma Index_sep_app (a r : string) :
  Index a "://" = None ->
  Index (a ++ "://" ++ r) "://" = Some (String.length a).
Proof.
  induction a as [|c a IH]; intros Ha.
  - now destruct r.
  - rewrite Index_cons in Ha.
    destruct (String.prefix "://" (String c a)) eqn:Hp; [discriminate|].
    destruct (Index a "://") eqn:Hi; [discriminate|].
    rewrite append_cons, Index_cons, (IH eq_refl).
    replace (String.prefix "://" (String c (a ++ "://" ++ r))) with false;
      [reflexivity|].
    symmetry. destruct a as [|x [|y a]]; app_norm;
      rewrite ?prefix_cons, ?prefix_cons_nil, ?prefix_nil in Hp |- *.
    + destruct (ascii_dec ":" c); [|reflexivity].
      now destruct (ascii_dec "/" ":").
    + destruct (ascii_dec ":" c); [|reflexivity].
      destruct (ascii_dec "/" x); [|reflexivity].
      now destruct (ascii_dec "/" ":").
    + exact Hp.
Qed.

End GoStringsFacts.

(** ** [parseAddr] *)

Module AddrFacts.
Import GoStrings GoStringsFacts Addr.

Lemma sep_nonempty : "://" <> "".
Proof. discriminate. Qed.

Lemma Contains_false (s sep : string) :
  Contains s sep = false <-> Index s sep = None.
Proof. unfold Contains. destruct (Index s sep); split; congruence. Qed.

Lemma str_drop_sep_app (a r : string) :
  str_drop (String.length a + String.length "://") (a ++ "://" ++ r) = r.
Proof. rewrite str_drop_add, str_drop_app. reflexivity. Qed.

(** [Split] around the first ["://"] of [a ++ "://" ++ r]. *)
Lemma Split_sep_app (a r : string) :
  Index a "://" = None ->
  Split (a ++ "://" ++ r) "://" = a :: Split r "://".
Proof.
  intros Ha.
  rewrite (Split_Some _ _ _ sep_nonempty (Index_sep_app a r Ha)).
  now rewrite str_take_app, str_drop_sep_app.
Qed.

Lemma parseAddr_bare (addr : string) :
  Index addr "://" = None -> parseAddr addr = Some ("tcp", addr).
Proof. intros H. unfold parseAddr, Contains. now rewrite H. Qed.

Lemma parseAddr_sep_app (a r : string) :
  Index a "://" = None ->
  parseAddr (a ++ "://" ++ r) = Some (a, hd "" (Split r "://")).
Proof.
  intros Ha. unfold parseAddr, Contains.
  rewrite (Index_sep_app a r Ha), (Split_sep_app a r Ha). simpl.
  destruct (Split r "://") eqn:Hs; [|reflexivity].
  exfalso. destruct (Index r "://") as [m|] eqn:Hr.
  - rewrite (Split_Some _ _ _ sep_nonempty Hr) in Hs. discriminate.
  - rewrite (Split_None _ _ sep_nonempty Hr) in Hs. discriminate.
Qed.

(** The two slice indexings of [parseAddr] are always in range. *)
Lemma parseAddr_total (addr : string) : is_Some (parseAddr addr).
Proof.
  destruct (Index addr "://") as [m|] eqn:Hi.
  - destruct (Index_Some_split _ _ _ Hi) as [Hs Hn].
    rewrite Hs, parseAddr_sep_app; eauto using sep_nonempty.
  - rewrite parseAddr_bare; eauto.
Qed.

(** C7: an address [scheme://host:port] with one of the seven schemes and
    no further ["://"] in [host:port] parses to [(scheme, host:port)], and
    an address without ["://"] parses to [("tcp", address)], unchanged. *)
Theorem parseAddr_scheme_or_bare (scheme rest addr : string) :
  (In scheme schemes -> Contains rest "://" = false ->
   parseAddr (scheme ++ "://" ++ rest) = Some (scheme, rest))
  /\ (Contains addr "://" = false -> parseAddr addr = Some ("tcp", addr)).
Proof.
  split.
  - intros Hin Hrest. apply Contains_false in Hrest.
    assert (Index scheme "://" = None) as Hs.
    { simpl in Hin. repeat destruct Hin as [<-|Hin]; try reflexivity.
      contradiction. }
    rewrite (parseAddr_sep_app _ _ Hs), (Split_None _ _ sep_nonempty Hrest).
    reflexivity.
  - intros H. apply parseAddr_bare. now apply Contains_false.
Qed.

Lemma parseAddr_scheme_or_bare_witness :
  (In "udp" schemes /\ Contains "127.0.0.1:5555" "://" = false /\
   parseAddr "udp://127.0.0.1:5555" = Some ("udp", "127.0.0.1:5555"))
  /\ (Contains "127.0.0.1:80" "://" = false /\
      parseAddr "127.0.0.1:80" = Some ("tcp", "127.0.0.1:80")).
Proof.
  pose proof (parseAddr_scheme_or_bare "udp" "127.0.0.1:5555" "127.0.0.1:80")
    as [H1 H2].
  assert (In "udp" schemes) as Hin by (simpl; tauto).
  split.
  - split; [exact Hin|]. split; [reflexivity|]. exact (H1 Hin eq_refl).
  - split; [reflexivity|]. exact (H2 eq_refl).
Defined.

(** C10: an address that holds ["://"] two or more times is
    [a ++ "://" ++ b ++ "://" ++ c] with no ["://"] in [a] nor in [b], and
    [parseAddr] returns [b], the segment between the first and the second
    ["://"], as the address (and [a] as the network); [c] is dropped. *)
Theorem parseAddr_drops_after_second_sep (addr : string) :
  2 <= Count addr "://" ->
  exists a b c : string,
    addr = a ++ "://" ++ b ++ "://" ++ c
    /\ Contains a "://" = false /\ Contains b "://" = false
    /\ parseAddr addr = Some (a, b).
Proof.
  intros Hc.
  destruct (Index addr "://") as [m|] eqn:Hi;
    [|rewrite (Count_None _ _ Hi) in Hc; lia].
  rewrite (Count_Some _ _ _ sep_nonempty Hi) in Hc.
  destruct (Index_Some_split _ _ _ Hi) as [Hs Hn].
  specialize (Hn sep_nonempty).
  set (a := str_take m addr) in *.
  set (r := str_drop (m + String.length "://") addr) in *.
  destruct (Index r "://") as [k|] eqn:Hr;
    [|rewrite (Count_None _ _ Hr) in Hc; lia].
  destruct (Index_Some_split _ _ _ Hr) as [Hs' Hn'].
  specialize (Hn' sep_nonempty).
  exists a, (str_take k r), (str_drop (k + String.length "://") r).
  rewrite <- Hs'. split; [exact Hs|].
  split; [now apply Contains_false|]. split; [now apply Contains_false|].
  rewrite Hs, (parseAddr_sep_app _ _ Hn).
  now rewrite (Split_Some _ _ _ sep_nonempty Hr).
Qed.

Lemma parseAddr_drops_after_second_sep_witness :
  2 <= Count "tcp://a://b" "://" /\
  exists a b c : string,
    "tcp://a://b" = a ++ "://" ++ b ++ "://" ++ c
    /\ Contains a "://" = false /\ Contains b "://" = false
    /\ parseAddr "tcp://a://b" = Some (a, b).
Proof.
  assert (2 <= Count "tcp://a://b" "://") as H by (vm_compute; lia).
  split; [exact H|]. exact (parseAddr_drops_after_second_sep "tcp://a://b" H).
Defined.

Example parseAddr_ex_two_seps :
  parseAddr "tcp://a://b" = Some ("tcp", "a").
Proof. reflexivity. Qed.

End AddrFacts.

(** ** The effect monad *)

Module EffFacts.
Import Go Data Eff World Obs.
Local Open Scope list_scope.

Lemma bind_Done {S A B} (m : M S A) (f : A -> M S B) s tr a s' tr' :
  m s tr = Done a s' tr' -> (m ≫= f) s tr = f a s' tr'.
Proof. intros H. unfold mbind, M_bind. now rewrite H. Qed.

Lemma bind_Parked {S A B} (m : M S A) (f : A -> M S B) s tr s' tr' :
  m s tr = Parked s' tr' -> (m ≫= f) s tr = Parked s' tr'.
Proof. intros H. unfold mbind, M_bind. now rewrite H. Qed.

Lemma bind_Panicked {S A B} (m : M S A) (f : A -> M S B) s tr s' tr' :
  m s tr = Panicked s' tr' -> (m ≫= f) s tr = Panicked s' tr'.
Proof. intros H. unfold mbind, M_bind. now rewrite H. Qed.

Lemma trace_invoke {S A} (e : event) (f : S -> S * A) s tr :
  trace_of (invoke e f s tr) = tr ++ [e].
Proof.
  unfold invoke, act, emit, mbind, M_bind. now destruct (f s).
Qed.

Lemma appends_ret {S A} P (a : A) : appends P (mret a : M S A).
Proof. intros s tr. exists []. now rewrite app_nil_r. Qed.

Lemma appends_emit {S} (P : event -> Prop) e : P e -> appends P (@emit S e).
Proof. intros H s tr. exists [e]. split; [reflexivity | now constructor]. Qed.

Lemma appends_get {S} P : appends P (@get S).
Proof. intros s tr. exists []. now rewrite app_nil_r. Qed.

Lemma appends_put {S} P (s0 : S) : appends P (put s0).
Proof. intros s tr. exists []. now rewrite app_nil_r. Qed.

Lemma appends_park {S A} P : appends P (@park S A).
Proof. intros s tr. exists []. now rewrite app_nil_r. Qed.

Lemma appends_panic {S A} P : appends P (@panic S A).
Proof. intros s tr. exists []. now rewrite app_nil_r. Qed.

Lemma appends_deref {S A} P (p : option A) : appends P (@deref S A p).
Proof. destruct p; [apply appends_ret | apply appends_panic]. Qed.

Lemma appends_act {S A} P (f : S -> S * A) : appends P (act f).
Proof.
  intros s tr. exists []. unfold act. destruct (f s).
  now rewrite app_nil_r.
Qed.

Lemma appends_bind {S A B} P (m : M S A) (f : A -> M S B) :
  appends P m -> (forall a, appends P (f a)) -> appends P (m ≫= f).
Proof.
  intros Hm Hf s tr. destruct (Hm s tr) as [n1 [E1 F1]].
  unfold mbind, M_bind. destruct (m s tr) as [a s' tr'| |]; simpl in E1;
    subst; eauto.
  destruct (Hf a s' (tr ++ n1)) as [n2 [E2 F2]].
  exists (n1 ++ n2). rewrite E2, app_assoc. split; [reflexivity|].
  now apply Forall_app.
Qed.

Lemma appends_invoke {S A} (P : event -> Prop) e (f : S -> S * A) :
  P e -> appends P (invoke e f).
Proof.
  intros H. apply appends_bind; [now apply appends_emit|].
  intros _. apply appends_act.
Qed.

Lemma appends_defer {S A} P (d : M S unit) (body : M S A) :
  appends P d -> appends P body -> appends P (defer d body).
Proof.
  intros Hd Hb s tr. destruct (Hb s tr) as [n1 [E1 F1]].
  unfold defer. destruct (body s tr) as [a s' tr'|s' tr'|s' tr'];
    simpl in E1; subst; eauto;
    destruct (Hd s' (tr ++ n1)) as [n2 [E2 F2]];
    exists (n1 ++ n2); (split; [|now apply Forall_app]);
    destruct (d s' (tr ++ n1)); simpl in E2 |- *; now rewrite E2, app_assoc.
Qed.

Lemma appends_sniffError {S} (P : event -> Prop) (err : option error) :
  (forall e, P (EvLogPrintln e)) -> appends P (@sniffError S err).
Proof.
  intros H. destruct err; [now apply appends_emit | apply appends_ret].
Qed.

(** [Polling] adds what its callback adds. *)
Lemma appends_Polling {S} P
    (callback : Z -> Z -> option Job -> M S (option error)) ready :
  (forall fd ev job, appends P (callback fd ev job)) ->
  appends P (Polling callback ready).
Proof.
  intros H. induction ready as [|[fd ev] ready IH]; simpl.
  - apply appends_park.
  - apply appends_bind; [apply H|].
    intros [e|]; [apply appends_ret | exact IH].
Qed.

Lemma trace_sniffError {S} (err : option error) (s : S) tr :
  @sniffError S err s tr = Done tt s (tr ++ logged err).
Proof. destruct err; simpl; [reflexivity | now rewrite app_nil_r]. Qed.

(** An [emit] at the head of a deferred body can be taken out of it. *)
Lemma defer_emit {S A} (d : M S unit) (e : event) (m : M S A) s tr :
  defer d (emit e;; m) s tr = (emit e;; defer d m) s tr.
Proof. reflexivity. Qed.

End EffFacts.

(** ** [reactor_linux.go]: dispatch of readiness events *)

Module ReactorFacts.
Import Go Opts Data Eff World Gnet Reactor Obs EffFacts.
Local Open Scope list_scope.

Lemma subReactor_callback_registered np h fd ev job (lp : loop) c tr :
  connections lp !! fd = Some c ->
  server_subReactor_callback np h fd ev job lp tr =
    if IsEmpty (outboundBuffer c) then
      if has_event ev (InEvents np)
      then invoke (EvLoopIn c) (loopIn h c) lp tr else Done None lp tr
    else
      if has_event ev (OutEvents np)
      then invoke (EvLoopOut c) (loopOut h c) lp tr else Done None lp tr.
Proof.
  intros Hc. unfold server_subReactor_callback.
  rewrite (bind_Done get _ lp tr lp lp tr eq_refl), Hc.
  destruct (IsEmpty (outboundBuffer c));
    [destruct (has_event ev (InEvents np))
    |destruct (has_event ev (OutEvents np))]; reflexivity.
Qed.

Lemma mainReactor_callback_registered np h fd ev job (cl : Client) lp c tr :
  cl_mainLoop cl = Some lp ->
  connections lp !! fd = Some c ->
  Client_mainReactor_callback np h fd ev job cl tr =
    if IsEmpty (outboundBuffer c) then
      if has_event ev (InEvents np)
      then invoke (EvLoopClientIn c) (loopClientIn h c) cl tr
      else Done None cl tr
    else
      if has_event ev (OutEvents np)
      then invoke (EvLoopClientOut c) (loopClientOut h c) cl tr
      else Done None cl tr.
Proof.
  intros Hl Hc. unfold Client_mainReactor_callback.
  rewrite (bind_Done get _ cl tr cl cl tr eq_refl), Hl.
  rewrite (bind_Done (deref (Some lp)) _ cl tr lp cl tr eq_refl), Hc.
  destruct (IsEmpty (outboundBuffer c));
    [destruct (has_event ev (InEvents np))
    |destruct (has_event ev (OutEvents np))]; reflexivity.
Qed.

(** C1: on a descriptor registered in the loop's connection table, a
    worker reactor of the server and the main reactor of the client run
    the outbound handler and nothing else when the outbound buffer is not
    empty, and only if the event mask has a bit of [OutEvents]; they run
    the inbound handler and nothing else when the buffer is empty, and
    only if the mask has a bit of [InEvents]. *)
Theorem dispatch_by_outbound_buffer
    np (hs : serverHandlers) (hc : clientHandlers)
    (lp : loop) (cl : Client) (fd ev : Z) (job : option Job)
    (c : conn) (tr : list event) :
  connections lp !! fd = Some c ->
  cl_mainLoop cl = Some lp ->
  (IsEmpty (outboundBuffer c) = false ->
     trace_of (server_subReactor_callback np hs fd ev job lp tr) =
       tr ++ (if has_event ev (OutEvents np) then [EvLoopOut c] else [])
     /\ trace_of (Client_mainReactor_callback np hc fd ev job cl tr) =
       tr ++ (if has_event ev (OutEvents np) then [EvLoopClientOut c]
              else []))
  /\ (IsEmpty (outboundBuffer c) = true ->
     trace_of (server_subReactor_callback np hs fd ev job lp tr) =
       tr ++ (if has_event ev (InEvents np) then [EvLoopIn c] else [])
     /\ trace_of (Client_mainReactor_callback np hc fd ev job cl tr) =
       tr ++ (if has_event ev (InEvents np) then [EvLoopClientIn c]
              else [])).
Proof.
  intros Hc Hl.
  rewrite (subReactor_callback_registered np hs fd ev job lp c tr Hc).
  rewrite (mainReactor_callback_registered np hc fd ev job cl lp c tr Hl Hc).
  split; intros ->;
    [destruct (has_event ev (OutEvents np))
    |destruct (has_event ev (InEvents np))];
    rewrite ?trace_invoke; simpl; rewrite ?app_nil_r; auto.
Qed.

Lemma dispatch_by_outbound_buffer_witness :
  let c := Samples.busy_conn in
  let lp := Samples.sample_loop c in
  let cl := Samples.sample_client c in
  let ev := Z.lor Samples.EPOLLIN Samples.EPOLLOUT in
  connections lp !! 7%Z = Some c /\ cl_mainLoop cl = Some lp /\
  IsEmpty (outboundBuffer c) = false /\
  trace_of (server_subReactor_callback Samples.sample_netpoll
              Samples.quiet_serverHandlers 7 ev None lp []) = [EvLoopOut c]
  /\ trace_of (Client_mainReactor_callback Samples.sample_netpoll
              Samples.quiet_clientHandlers 7 ev None cl []) =
     [EvLoopClientOut c].
Proof.
  intros c lp cl ev.
  assert (connections lp !! 7%Z = Some c) as Hc by reflexivity.
  assert (cl_mainLoop cl = Some lp) as Hl by reflexivity.
  assert (IsEmpty (outboundBuffer c) = false) as Hb by reflexivity.
  destruct (dispatch_by_outbound_buffer Samples.sample_netpoll
              Samples.quiet_serverHandlers Samples.quiet_clientHandlers
              lp cl 7 ev None c [] Hc Hl) as [Hout _].
  destruct (Hout Hb) as [H1 H2].
  split; [exact Hc|]. split; [exact Hl|]. split; [exact Hb|].
  split; [exact H1 | exact H2].
Defined.

Lemma subReactor_callback_unregistered np h fd ev job (lp : loop) tr :
  connections lp !! fd = None ->
  server_subReactor_callback np h fd ev job lp tr = Done None lp tr.
Proof.
  intros Hc. unfold server_subReactor_callback.
  now rewrite (bind_Done get _ lp tr lp lp tr eq_refl), Hc.
Qed.

Lemma mainReactor_callback_unregistered np h fd ev job (cl : Client) lp tr :
  cl_mainLoop cl = Some lp ->
  connections lp !! fd = None ->
  Client_mainReactor_callback np h fd ev job cl tr = Done None cl tr.
Proof.
  intros Hl Hc. unfold Client_mainReactor_callback.
  rewrite (bind_Done get _ cl tr cl cl tr eq_refl), Hl.
  now rewrite (bind_Done (deref (Some lp)) _ cl tr lp cl tr eq_refl), Hc.
Qed.

(** [Polling] goes on to the next ready descriptor when the callback
    returns nil and leaves everything as it was. *)
Lemma Polling_skip {S} (callback : Z -> Z -> option Job -> M S (option error))
    fd ev ready s tr :
  callback fd ev None s tr = Done None s tr ->
  Polling callback ((fd, ev) :: ready) s tr = Polling callback ready s tr.
Proof. intros H. simpl. now rewrite (bind_Done _ _ _ _ _ _ _ H). Qed.

(** C9, as amended: in the polling callback of a worker reactor of the
    server and of the main reactor of the client, a readiness event for a
    descriptor that is not in the loop's connection table is ignored: the
    callback returns nil, emits nothing and leaves the state as it was,
    and [Polling] goes on with the next ready descriptor. *)
Theorem unregistered_descriptor_ignored
    np (hs : serverHandlers) (hc : clientHandlers)
    (lp : loop) (cl : Client) (fd ev : Z) (job : option Job)
    (ready : list (Z * Z)) (tr : list event) :
  connections lp !! fd = None ->
  cl_mainLoop cl = Some lp ->
  (server_subReactor_callback np hs fd ev job lp tr = Done None lp tr
   /\ Polling (server_subReactor_callback np hs) ((fd, ev) :: ready) lp tr =
      Polling (server_subReactor_callback np hs) ready lp tr)
  /\ (Client_mainReactor_callback np hc fd ev job cl tr = Done None cl tr
   /\ Polling (Client_mainReactor_callback np hc) ((fd, ev) :: ready) cl tr =
      Polling (Client_mainReactor_callback np hc) ready cl tr).
Proof.
  intros Hc Hl. split; split.
  - now apply subReactor_callback_unregistered.
  - apply Polling_skip. now apply subReactor_callback_unregistered.
  - now apply mainReactor_callback_unregistered with lp.
  - apply Polling_skip. now apply mainReactor_callback_unregistered with lp.
Qed.

Lemma unregistered_descriptor_ignored_witness :
  let c := Samples.idle_conn in
  let lp := Samples.sample_loop c in
  let cl := Samples.sample_client c in
  let np := Samples.sample_netpoll in
  connections lp !! 9%Z = None /\ cl_mainLoop cl = Some lp /\
  server_subReactor_callback np Samples.quiet_serverHandlers 9 1 None lp []
    = Done None lp []
  /\ Client_mainReactor_callback np Samples.quiet_clientHandlers 9 1 None cl []
    = Done None cl [].
Proof.
  intros c lp cl np.
  assert (connections lp !! 9%Z = None) as Hc by reflexivity.
  assert (cl_mainLoop cl = Some lp) as Hl by reflexivity.
  destruct (unregistered_descriptor_ignored np Samples.quiet_serverHandlers
              Samples.quiet_clientHandlers lp cl 9 1 None [] [] Hc Hl)
    as [[H1 _] [H2 _]].
  split; [exact Hc|]. split; [exact Hl|]. split; [exact H1 | exact H2].
Defined.

(** C9 as stated, for every reactor, fails on the accept reactor of the
    server: its callback hands every descriptor to [acceptNewConnection]
    without looking at the connection table, and the error of a failed
    accept ends [Polling]. *)
Lemma accept_reactor_dispatches_unregistered :
  let lp := Samples.empty_loop in
  connections lp !! 7%Z = None
  /\ server_mainReactor_callback Samples.quiet_serverHandlers 7 1 None lp []
     = Done None lp [EvAcceptNewConnection 7]
  /\ server_mainReactor_callback Samples.quiet_serverHandlers 7 1 None lp []
     <> Done None lp []
  /\ Polling (server_mainReactor_callback Samples.failing_accept)
       [(7%Z, 1%Z); (7%Z, 1%Z)] lp []
     = Done (errorString "too many open files") lp [EvAcceptNewConnection 7].
Proof.
  intros lp. split; [reflexivity|]. split; [reflexivity|].
  split; [discriminate | reflexivity].
Qed.

(** *** The ticker *)

Lemma ticker_launches_app tr new :
  Forall not_ticker new ->
  ticker_launches (tr ++ new) = ticker_launches tr.
Proof.
  intros H. unfold ticker_launches. rewrite filter_app, length_app.
  induction H as [|e new He _ IH]; simpl; [lia|].
  rewrite filter_cons. unfold not_ticker in He.
  destruct (decide (is_ticker_launch e = true)) as [Ht|]; [congruence|].
  exact IH.
Qed.

Lemma appends_signalShutdown : appends not_ticker Client_signalShutdown.
Proof.
  unfold Client_signalShutdown, once_Do.
  apply appends_bind; [apply appends_get|]. intros cl.
  destruct (cl_once cl); [apply appends_ret|].
  apply appends_defer.
  - apply appends_bind; [apply appends_get | intros; apply appends_put].
  - repeat (apply appends_bind; [now apply appends_emit | intros _]).
    now apply appends_emit.
Qed.

Lemma appends_subReactor_callback np h fd ev job :
  appends not_ticker (server_subReactor_callback np h fd ev job).
Proof.
  unfold server_subReactor_callback.
  apply appends_bind; [apply appends_get|]. intros lp.
  destruct (connections lp !! fd) as [c|]; [|apply appends_ret].
  destruct (IsEmpty (outboundBuffer c));
    [destruct (has_event ev (InEvents np))
    |destruct (has_event ev (OutEvents np))];
    try apply appends_ret; now apply appends_invoke.
Qed.

Lemma appends_mainReactor_callback np h fd ev job :
  appends not_ticker (Client_mainReactor_callback np h fd ev job).
Proof.
  unfold Client_mainReactor_callback.
  apply appends_bind; [apply appends_get|]. intros cl.
  apply appends_bind; [apply appends_deref|]. intros lp.
  destruct (connections lp !! fd) as [c|]; [|apply appends_ret].
  destruct (IsEmpty (outboundBuffer c));
    [destruct (has_event ev (InEvents np))
    |destruct (has_event ev (OutEvents np))];
    try apply appends_ret; now apply appends_invoke.
Qed.

Lemma appends_accept_callback h fd ev job :
  appends not_ticker (server_mainReactor_callback h fd ev job).
Proof. now apply appends_invoke. Qed.

(** The part of a reactor after the ticker has or has not been launched. *)
Lemma appends_polling_part {S}
    (d : M S unit) (callback : Z -> Z -> option Job -> M S (option error))
    ready :
  appends not_ticker d ->
  (forall fd ev job, appends not_ticker (callback fd ev job)) ->
  appends not_ticker (defer d (_ ← Polling callback ready; mret tt)).
Proof.
  intros Hd Hcb. apply appends_defer; [exact Hd|].
  apply appends_bind; [now apply appends_Polling|].
  intros _. apply appends_ret.
Qed.

Lemma subReactor_ticker_then_polling svr_opts np h ready (lp : loop) tr :
  server_activateSubReactor svr_opts np h ready lp tr =
    defer (emit EvServerSignalShutdown)
      (_ ← Polling (server_subReactor_callback np h) ready; mret tt)
      lp (tr ++ if Z.eqb (idx lp) 0 && Ticker svr_opts
                then [EvGoLoopTicker (idx lp)] else []).
Proof.
  unfold server_activateSubReactor.
  destruct (Z.eqb (idx lp) 0 && Ticker svr_opts) eqn:Hb.
  - unfold defer at 1, mbind at 1, M_bind at 1, get. rewrite Hb. reflexivity.
  - rewrite app_nil_r.
    unfold defer at 1, mbind at 1, M_bind at 1, get. rewrite Hb. reflexivity.
Qed.

Lemma mainReactor_ticker_then_polling np h ready (cl : Client) lp tr :
  cl_mainLoop cl = Some lp ->
  Client_activateMainReactor np h ready cl tr =
    defer Client_signalShutdown
      (_ ← Polling (Client_mainReactor_callback np h) ready; mret tt)
      cl (tr ++ if Z.eqb (idx lp) 0 && Ticker (cl_opts cl)
                then [EvGoLoopTicker (idx lp)] else []).
Proof.
  intros Hl. unfold Client_activateMainReactor.
  destruct (Z.eqb (idx lp) 0 && Ticker (cl_opts cl)) eqn:Hb.
  - unfold defer at 1, mbind at 1, M_bind at 1, get. rewrite Hl.
    unfold mbind at 1, M_bind at 1, deref, mret, M_ret. rewrite Hb.
    reflexivity.
  - rewrite app_nil_r.
    unfold defer at 1, mbind at 1, M_bind at 1, get. rewrite Hl.
    unfold mbind at 1, M_bind at 1, deref, mret, M_ret. rewrite Hb.
    reflexivity.
Qed.

Lemma ticker_launches_one_or_none (b : bool) i :
  ticker_launches (if b then [EvGoLoopTicker i] else []) =
    if b then 1 else 0.
Proof. now destruct b. Qed.

Lemma ticker_count_subReactor svr_opts np h ready (lp : loop) :
  ticker_launches
    (trace_of (server_activateSubReactor svr_opts np h ready lp [])) =
  if Z.eqb (idx lp) 0 && Ticker svr_opts then 1 else 0.
Proof.
  rewrite subReactor_ticker_then_polling.
  destruct (appends_polling_part (emit EvServerSignalShutdown)
              (server_subReactor_callback np h) ready
              ltac:(now apply appends_emit)
              (appends_subReactor_callback np h) lp
              ([] ++ if Z.eqb (idx lp) 0 && Ticker svr_opts
                     then [EvGoLoopTicker (idx lp)] else []))
    as [new [-> F]].
  rewrite (ticker_launches_app _ _ F). apply ticker_launches_one_or_none.
Qed.

Lemma ticker_count_mainReactor np h ready (cl : Client) lp :
  cl_mainLoop cl = Some lp ->
  ticker_launches
    (trace_of (Client_activateMainReactor np h ready cl [])) =
  if Z.eqb (idx lp) 0 && Ticker (cl_opts cl) then 1 else 0.
Proof.
  intros Hl. rewrite (mainReactor_ticker_then_polling _ _ _ _ lp _ Hl).
  destruct (appends_polling_part Client_signalShutdown
              (Client_mainReactor_callback np h) ready
              appends_signalShutdown
              (appends_mainReactor_callback np h) cl
              ([] ++ if Z.eqb (idx lp) 0 && Ticker (cl_opts cl)
                     then [EvGoLoopTicker (idx lp)] else []))
    as [new [-> F]].
  rewrite (ticker_launches_app _ _ F). apply ticker_launches_one_or_none.
Qed.

Lemma ticker_count_acceptReactor h ready (lp : loop) :
  ticker_launches (trace_of (server_activateMainReactor h ready lp [])) = 0.
Proof.
  destruct (appends_polling_part (emit EvServerSignalShutdown)
              (server_mainReactor_callback h) ready
              ltac:(now apply appends_emit)
              (appends_accept_callback h) lp [])
    as [new [E F]].
  unfold server_activateMainReactor. rewrite E.
  now rewrite (ticker_launches_app _ _ F).
Qed.

(** C6: a reactor launches a ticker thread if and only if the index of
    its loop is 0 and the [Ticker] option is set, and then it launches
    one; so do the main loop of the client and every worker reactor of
    the server, while the accept reactor of the server launches none. *)
Theorem ticker_iff_index_zero_and_option
    np (hs : serverHandlers) (hc : clientHandlers) (svr_opts : Options)
    (ready : list (Z * Z)) (lp mainLoop acceptLoop : loop) (cl : Client) :
  cl_mainLoop cl = Some mainLoop ->
  let client_tr := trace_of (Client_activateMainReactor np hc ready cl []) in
  let worker_tr :=
    trace_of (server_activateSubReactor svr_opts np hs ready lp []) in
  let accept_tr :=
    trace_of (server_activateMainReactor hs ready acceptLoop []) in
  (0 < ticker_launches client_tr <->
     idx mainLoop = 0%Z /\ Ticker (cl_opts cl) = true)
  /\ (0 < ticker_launches worker_tr <->
     idx lp = 0%Z /\ Ticker svr_opts = true)
  /\ ticker_launches client_tr <= 1
  /\ ticker_launches worker_tr <= 1
  /\ ticker_launches accept_tr = 0.
Proof.
  intros Hl client_tr worker_tr accept_tr.
  unfold client_tr, worker_tr, accept_tr.
  rewrite (ticker_count_mainReactor np hc ready cl mainLoop Hl),
    ticker_count_subReactor, ticker_count_acceptReactor.
  assert (forall (z : Z) (b : bool),
            (0 < (if Z.eqb z 0 && b then 1 else 0) <-> z = 0%Z /\ b = true)
            /\ (if Z.eqb z 0 && b then 1 else 0) <= 1) as H.
  { intros z b. destruct (Z.eqb_spec z 0), b; simpl; split; try lia;
      (split; [lia | intros [? ?]; congruence || lia]). }
  destruct (H (idx mainLoop) (Ticker (cl_opts cl))) as [? ?].
  destruct (H (idx lp) (Ticker svr_opts)) as [? ?].
  auto.
Qed.

Lemma ticker_iff_index_zero_and_option_witness :
  let c := Samples.idle_conn in
  let cl := Samples.sample_client c in
  let ready := [(7%Z, 1%Z)] in
  cl_mainLoop cl = Some (Samples.sample_loop c)
  /\ 0 < ticker_launches
           (trace_of (Client_activateMainReactor Samples.sample_netpoll
                        Samples.quiet_clientHandlers ready cl []))
  /\ ticker_launches
       (trace_of (Client_activateMainReactor Samples.sample_netpoll
                    Samples.quiet_clientHandlers ready cl [])) <= 1
  /\ ~ 0 < ticker_launches
             (trace_of (server_activateSubReactor zeroOptions
                          Samples.sample_netpoll Samples.quiet_serverHandlers
                          ready (Samples.sample_loop c) []))
  /\ ticker_launches
       (trace_of (server_activateMainReactor Samples.quiet_serverHandlers
                    ready Samples.empty_loop [])) = 0.
Proof.
  intros c cl ready.
  assert (cl_mainLoop cl = Some (Samples.sample_loop c)) as Hl
    by reflexivity.
  destruct (ticker_iff_index_zero_and_option Samples.sample_netpoll
              Samples.quiet_serverHandlers Samples.quiet_clientHandlers
              zeroOptions ready (Samples.sample_loop c)
              (Samples.sample_loop c) Samples.empty_loop cl Hl)
    as (Hc & Hw & H1 & _ & H2).
  split; [exact Hl|].
  split; [apply Hc; split; reflexivity|].
  split; [exact H1|].
  split; [|exact H2].
  intros H. apply Hw in H. destruct H as [_ H]. discriminate H.
Defined.

Example ticker_ex_client :
  trace_of (Client_activateMainReactor Samples.sample_netpoll
              Samples.quiet_clientHandlers [(7%Z, 1%Z)]
              (Samples.sample_client Samples.idle_conn) []) =
  [EvGoLoopTicker 0; EvLoopClientIn Samples.idle_conn].
Proof. reflexivity. Qed.

End ReactorFacts.

(** ** [client.go]: shutdown signal, teardown and the entry points *)

Module ClientFacts.
Import Go Opts Data Eff World Gnet Obs EffFacts.
Local Open Scope list_scope.

Lemma signalShutdown_first (cl : Client) tr :
  cl_once cl = false ->
  Client_signalShutdown cl tr = Done tt (set_once cl) (tr ++ signal_body).
Proof.
  intros H. unfold Client_signalShutdown, once_Do.
  rewrite (bind_Done get _ cl tr cl cl tr eq_refl), H.
  unfold defer, mbind, M_bind, emit, get, put. simpl.
  now rewrite <- !app_assoc.
Qed.

Lemma signalShutdown_again (cl : Client) tr :
  cl_once cl = true -> Client_signalShutdown cl tr = Done tt cl tr.
Proof.
  intros H. unfold Client_signalShutdown, once_Do.
  now rewrite (bind_Done get _ cl tr cl cl tr eq_refl), H.
Qed.

Lemma repeat_signalShutdown_done (n : nat) (cl : Client) tr :
  cl_once cl = true ->
  repeat_call n Client_signalShutdown cl tr = Done tt cl tr.
Proof.
  intros H. induction n as [|n IH]; [reflexivity|]. simpl.
  now rewrite (bind_Done _ _ _ _ _ _ _ (signalShutdown_again cl tr H)).
Qed.

Lemma cond_signals_app tr new :
  cond_signals (tr ++ new) = cond_signals tr + cond_signals new.
Proof. unfold cond_signals. now rewrite filter_app, length_app. Qed.

(** C3: from a client whose [once] has not fired, any number [n >= 1] of
    calls of [signalShutdown] runs the guarded body once and signals the
    condition variable once; and two calls in a row leave any client and
    trace as one call does. *)
Theorem signalShutdown_idempotent (n : nat) (cl : Client) (tr : list event) :
  cl_once cl = false -> 1 <= n ->
  repeat_call n Client_signalShutdown cl tr =
    Done tt (set_once cl) (tr ++ [EvCondLock; EvCondSignal; EvCondUnlock])
  /\ cond_signals (trace_of (repeat_call n Client_signalShutdown cl tr)) =
     cond_signals tr + 1
  /\ (forall (cl' : Client) (tr' : list event),
        (Client_signalShutdown;; Client_signalShutdown) cl' tr' =
        Client_signalShutdown cl' tr').
Proof.
  intros Hon Hn.
  assert (repeat_call n Client_signalShutdown cl tr =
          Done tt (set_once cl) (tr ++ signal_body)) as E.
  { destruct n as [|n]; [lia|]. simpl.
    rewrite (bind_Done _ _ _ _ _ _ _ (signalShutdown_first cl tr Hon)).
    now apply repeat_signalShutdown_done. }
  split; [exact E|]. split.
  - rewrite E. simpl. now rewrite cond_signals_app.
  - intros cl' tr'. destruct (cl_once cl') eqn:Ho.
    + rewrite (bind_Done _ _ _ _ _ _ _ (signalShutdown_again cl' tr' Ho)).
      reflexivity.
    + rewrite (bind_Done _ _ _ _ _ _ _ (signalShutdown_first cl' tr' Ho)).
      rewrite (signalShutdown_first cl' tr' Ho).
      now apply signalShutdown_again.
Qed.

Lemma signalShutdown_idempotent_witness :
  let cl := newClient Samples.sample_connection zeroOptions in
  cl_once cl = false /\ 1 <= 3 /\
  repeat_call 3 Client_signalShutdown cl [] =
    Done tt (set_once cl) [EvCondLock; EvCondSignal; EvCondUnlock].
Proof.
  intros cl.
  assert (cl_once cl = false) as Ho by reflexivity.
  assert (1 <= 3) as Hn by lia.
  destruct (signalShutdown_idempotent 3 cl [] Ho Hn) as [H _].
  split; [exact Ho|]. split; [exact Hn | exact H].
Defined.

(** *** Teardown *)

(** What [stop] does, by what the other goroutines do meanwhile. *)
Lemma stop_outcome cenv (cl : Client) lp tr :
  cl_mainLoop cl = Some lp ->
  Client_stop cenv cl tr =
    if shutdown_signalled cenv then
      let t1 := tr ++ waited ++ injected cenv lp ++ [EvWgWait] in
      match cl_wg cl with
      | O => Done tt cl (t1 ++ closed cenv lp)
      | S _ =>
          if reactors_finish cenv
          then Done tt (set_wg 0 cl) (t1 ++ closed cenv lp)
          else Parked cl t1
      end
    else Parked cl (tr ++ [EvCondLock; EvCondWait]).
Proof.
  intros Hl. unfold Client_stop, Client_waitForShutdown, cond_Wait, wg_Wait.
  unfold mbind, M_bind, emit, get, put, park.
  destruct (shutdown_signalled cenv); simpl;
    [|now rewrite <- app_assoc].
  rewrite Hl. simpl. rewrite !trace_sniffError.
  unfold injected, closed, waited.
  destruct (cl_wg cl) as [|k]; [|destruct (reactors_finish cenv)];
    simpl; rewrite ?Hl, ?trace_sniffError; simpl;
    repeat (rewrite <- ?app_assoc; simpl); reflexivity.
Qed.

(** C4: [stop], on a client whose main loop is set, first waits for the
    shutdown signal, and does nothing more while it has not fired; then
    it injects into the poller of the main loop a job that returns
    [errShutdown]; then it waits for the reactor goroutine, and closes
    nothing while that has not finished; and only then it closes the
    poller.  Whenever [stop] returns, its trace is this whole sequence in
    this order. *)
Theorem stop_sentinel_protocol
    (cenv : ClientEnv) (cl : Client) (lp : loop) (tr : list event) :
  cl_mainLoop cl = Some lp ->
  sentinel tt = Some errShutdown
  /\ (shutdown_signalled cenv = false ->
      Client_stop cenv cl tr = Parked cl (tr ++ [EvCondLock; EvCondWait]))
  /\ (shutdown_signalled cenv = true -> 0 < cl_wg cl ->
      reactors_finish cenv = false ->
      Client_stop cenv cl tr =
        Parked cl (tr ++ waited ++ injected cenv lp ++ [EvWgWait]))
  /\ (forall s t, Client_stop cenv cl tr = Done tt s t ->
      shutdown_signalled cenv = true
      /\ t = tr ++ waited ++ injected cenv lp ++ [EvWgWait] ++ closed cenv lp)
  /\ (shutdown_signalled cenv = true -> reactors_finish cenv = true ->
      exists s, Client_stop cenv cl tr =
        Done tt s
          (tr ++ waited ++ injected cenv lp ++ [EvWgWait] ++ closed cenv lp)).
Proof.
  intros Hl. rewrite (stop_outcome cenv cl lp tr Hl).
  assert (forall a b c d : list event,
            (a ++ b ++ c ++ d) ++ closed cenv lp =
            a ++ b ++ c ++ d ++ closed cenv lp) as Ha
    by (intros; now rewrite <- !app_assoc).
  split; [reflexivity|]. split; [now intros ->|]. split.
  { intros -> Hw ->. destruct (cl_wg cl); [lia | reflexivity]. }
  split.
  - intros s t. destruct (shutdown_signalled cenv); [|discriminate].
    cbv zeta. rewrite Ha.
    destruct (cl_wg cl); [|destruct (reactors_finish cenv)];
      intros H; inversion H; auto.
  - intros -> ->. cbv zeta. rewrite Ha. destruct (cl_wg cl); eauto.
Qed.

Lemma stop_sentinel_protocol_witness :
  let cl := Samples.sample_client Samples.idle_conn in
  let lp := Samples.sample_loop Samples.idle_conn in
  cl_mainLoop cl = Some lp
  /\ Client_stop Samples.idle_clientEnv cl [] =
     Parked cl [EvCondLock; EvCondWait]
  /\ exists s, Client_stop Samples.finishing_clientEnv cl [] =
       Done tt s [EvCondLock; EvCondWait; EvCondUnlock; EvTrigger sentinel;
                  EvWgWait; EvPollerClose].
Proof.
  intros cl lp.
  assert (cl_mainLoop cl = Some lp) as Hl by reflexivity.
  destruct (stop_sentinel_protocol Samples.idle_clientEnv cl lp [] Hl)
    as (_ & H1 & _).
  destruct (stop_sentinel_protocol Samples.finishing_clientEnv cl lp [] Hl)
    as (_ & _ & _ & _ & H2).
  split; [exact Hl|]. split; [exact (H1 eq_refl) | exact (H2 eq_refl eq_refl)].
Defined.

(** *** [connect] *)

Lemma start_opened cenv p con options tr :
  netpoll_OpenPoller cenv = Ok p ->
  Client_start cenv (newClient con options) tr =
    Done None (started_client cenv p con options)
      (tr ++ [EvOpenPoller; EvAddRead (con_fd con); EvGoMainReactor]).
Proof.
  intros Hp. unfold Client_start, Client_activateReactors.
  unfold mbind at 1, M_bind at 1, emit at 1. rewrite Hp.
  unfold mbind, M_bind, emit, get, put, deref, mret, M_ret. simpl.
  now rewrite <- !app_assoc.
Qed.

Lemma start_failed cenv e con options tr :
  netpoll_OpenPoller cenv = Fail e ->
  Client_start cenv (newClient con options) tr =
    Done (Some e) (newClient con options) (tr ++ [EvOpenPoller]).
Proof.
  intros Hp. unfold Client_start, Client_activateReactors.
  unfold mbind at 1, M_bind at 1, emit at 1. now rewrite Hp.
Qed.

(** After a successful start [connect] fires the callback and goes into
    [stop], whatever [Action] the callback returns. *)
Lemma connect_started cenv eh p con options tr :
  netpoll_OpenPoller cenv = Ok p ->
  connect cenv eh con options tt tr =
    forget None
      (Client_stop cenv (started_client cenv p con options)
         (tr ++ [EvOpenPoller; EvAddRead (con_fd con); EvGoMainReactor;
                 EvOnConnectionEstablished])).
Proof.
  intros Hp. unfold connect, scope.
  rewrite (bind_Done _ _ _ _ _ _ _ (start_opened cenv p con options tr Hp)).
  unfold defer. unfold mbind at 1, M_bind at 1, get.
  unfold mbind at 1, M_bind at 1, emit at 1.
  rewrite <- app_assoc. simpl.
  destruct (OnConnectionEstablished eh (started_client cenv p con options));
    unfold mret, M_ret;
    destruct (Client_stop cenv (started_client cenv p con options) _);
    reflexivity.
Qed.

Lemma connect_not_started cenv eh e con options tr :
  netpoll_OpenPoller cenv = Fail e ->
  connect cenv eh con options tt tr =
    Done (Some e) tt (tr ++ [EvOpenPoller; EvLogPrintf e]).
Proof.
  intros Hp. unfold connect, scope.
  rewrite (bind_Done _ _ _ _ _ _ _ (start_failed cenv e con options tr Hp)).
  unfold mbind, M_bind, emit, mret, M_ret. now rewrite <- app_assoc.
Qed.

Lemma established_calls_app tr new :
  established_calls (tr ++ new) =
    established_calls tr + established_calls new.
Proof. unfold established_calls. now rewrite filter_app, length_app. Qed.

Lemma established_calls_none new :
  Forall not_established new -> established_calls new = 0.
Proof.
  intros H. unfold established_calls.
  induction H as [|e new He _ IH]; [reflexivity|].
  rewrite filter_cons. unfold not_established in He.
  destruct (decide (is_established e = true)); [congruence | exact IH].
Qed.

Lemma appends_stop cenv : appends not_established (Client_stop cenv).
Proof.
  unfold Client_stop, Client_waitForShutdown, cond_Wait, wg_Wait.
  repeat first
    [ apply appends_get | apply appends_ret | apply appends_park
    | apply appends_put
    | apply appends_emit; reflexivity
    | apply appends_sniffError; reflexivity
    | apply appends_bind; [|intros ?]
    | match goal with
      | |- appends _ (if ?b then _ else _) => destruct b
      | |- appends _ (match ?x with _ => _ end) => destruct x
      end ].
Qed.

Lemma trace_forget {T A} (a : A) (o : outcome T unit) :
  trace_of (forget a o) = trace_of o.
Proof. now destruct o. Qed.

(** C2, on the code: the callback is fired exactly once after a
    successful start, but the [Action] it returns changes nothing: for
    [Shutdown] as for [None], [connect] goes into the deferred [stop],
    which waits for the shutdown signal.  When no other goroutine signals
    shutdown, [connect] with a callback that returns [Shutdown] stays
    blocked in [cl.cond.Wait]: no job is injected into the poller and the
    poller is not closed. *)
Theorem connect_Shutdown_waits_like_None :
  connect Samples.idle_clientEnv Samples.shutdown_handler
    Samples.sample_connection zeroOptions tt [] =
    Parked tt [EvOpenPoller; EvAddRead 7; EvGoMainReactor;
               EvOnConnectionEstablished; EvCondLock; EvCondWait]
  /\ (forall cenv eh con options tr,
        connect cenv eh con options tt tr =
        connect cenv Samples.none_handler con options tt tr)
  /\ (forall cenv eh con options,
        established_calls (trace_of (connect cenv eh con options tt [])) =
        match netpoll_OpenPoller cenv with Ok _ => 1 | Fail _ => 0 end).
Proof.
  split; [reflexivity|]. split.
  - intros cenv eh con options tr.
    destruct (netpoll_OpenPoller cenv) as [p|e] eqn:Hp.
    + now rewrite !(connect_started cenv _ p con options tr Hp).
    + now rewrite !(connect_not_started cenv _ e con options tr Hp).
  - intros cenv eh con options.
    destruct (netpoll_OpenPoller cenv) as [p|e] eqn:Hp.
    + rewrite (connect_started cenv eh p con options [] Hp), trace_forget.
      destruct (appends_stop cenv (started_client cenv p con options)
                  ([] ++ [EvOpenPoller; EvAddRead (con_fd con);
                          EvGoMainReactor; EvOnConnectionEstablished]))
        as [new [-> F]].
      rewrite established_calls_app, (established_calls_none _ F).
      reflexivity.
    + now rewrite (connect_not_started cenv eh e con options [] Hp).
Qed.

(** *** [Write] *)



End ClientFacts.

(** ** [gnet.go]: setup failures of [Serve] and [Connect] *)

Module SetupFacts.
Import GoStrings Addr Go Opts Data Eff World Gnet Obs EffFacts.
Local Open Scope list_scope.

Lemma reactor_starts_app tr new :
  reactor_starts (tr ++ new) = reactor_starts tr + reactor_starts new.
Proof. unfold reactor_starts. now rewrite filter_app, length_app. Qed.

Lemma reactor_starts_removed env network address :
  reactor_starts (removed env network address ++ [EvListenerClose]) = 0.
Proof.
  unfold removed. destruct (String.eqb network "unix"); [|reflexivity].
  now destruct (os_RemoveAll env address).
Qed.

(** [Serve] up to the listen call. *)
Lemma Serve_setup_failure env addr opts network address e tr :
  parseAddr addr = Some (network, address) ->
  ServeSetupFailure env network address (initOptions opts) e ->
  Serve env addr opts tt tr =
    Done (Some e) tt (tr ++ removed env network address ++ [EvListenerClose]).
Proof.
  intros Hp Hf. unfold Serve, defer.
  rewrite (bind_Done (deref (parseAddr addr)) _ tt tr (network, address) tt tr)
    by now rewrite Hp.
  cbn [ln_network ln_addr ln_ln ln_lnaddr ln_pconn ln_f ln_fd].
  assert ((if String.eqb network "unix"
           then emit (EvRemoveAll address);;
                sniffError (os_RemoveAll env address)
           else mret tt) tt tr
          = Done tt tt (tr ++ removed env network address)) as Hr.
  { unfold removed. destruct (String.eqb network "unix").
    - unfold mbind at 1, M_bind at 1, emit at 1.
      now rewrite trace_sniffError, <- app_assoc.
    - now rewrite app_nil_r. }
  rewrite (bind_Done _ _ _ _ _ _ _ Hr). clear Hr.
  destruct Hf as [Hl | h Hl Hs]; unfold listen_result, listening in *;
    destruct (String.eqb network "udp"); rewrite Hl; cbn [fst snd];
    unfold mret, M_ret, emit, mbind, M_bind, deref;
    cbn [ln_network ln_addr ln_ln ln_lnaddr ln_pconn ln_f ln_fd];
    try (now rewrite <- app_assoc);
    unfold mret, M_ret; cbn beta iota;
    destruct (listener_system env _) as [ln' err']; simpl in Hs; subst err';
    now rewrite <- app_assoc.
Qed.

Lemma Connect_setup_failure env cenv eh addr opts network address e tr :
  parseAddr addr = Some (network, address) ->
  ConnectSetupFailure env network address e ->
  Connect env cenv eh addr opts tt tr = Done (Some e) tt tr.
Proof.
  intros Hp Hf. unfold Connect.
  rewrite (bind_Done (deref (parseAddr addr)) _ tt tr (network, address) tt tr)
    by now rewrite Hp.
  cbn [con_network con_addr con_pconn con_f con_fd].
  destruct Hf as [Hr | a Hr Hd | a c Hr Hd Hf | a c f Hr Hd Hf Hn];
    unfold resolve_result, dial_result in *;
    destruct (String.eqb network "udp"); rewrite Hr;
    try reflexivity;
    match type of Hd with
    | context [net_DialUDP ?v ?n ?x] => destruct (net_DialUDP v n x)
    | context [net_DialTCP ?v ?n ?x] => destruct (net_DialTCP v n x)
    end;
    inversion Hd; subst; try reflexivity;
    cbn [con_network con_addr con_pconn con_f con_fd];
    rewrite Hf; try reflexivity;
    unfold mbind, M_bind, deref, mret, M_ret;
    cbn [con_network con_addr con_pconn con_f con_fd];
    now rewrite Hn.
Qed.

(** C5: when the setup of [Serve] fails (the listen call, or [ln.system]
    after it) or that of [Connect] fails (address resolution, dial,
    [File], [SetNonblock]), the function returns that very error to its
    caller, and no reactor is built or started: [Serve] has only removed
    the Unix socket path, if any, and closed the listener, and never
    enters [serve]; [Connect] has done nothing that shows, and never
    enters [connect]. *)
Theorem setup_errors_returned_before_any_reactor
    (env : Net) (cenv : ClientEnv) (eh : EventHandler)
    (addr : string) (opts : list Option)
    (network address : string) (e : error) (tr : list event) :
  parseAddr addr = Some (network, address) ->
  (ServeSetupFailure env network address (initOptions opts) e ->
     Serve env addr opts tt tr =
       Done (Some e) tt
         (tr ++ removed env network address ++ [EvListenerClose])
     /\ reactor_starts (trace_of (Serve env addr opts tt tr)) =
        reactor_starts tr)
  /\ (ConnectSetupFailure env network address e ->
     Connect env cenv eh addr opts tt tr = Done (Some e) tt tr
     /\ reactor_starts (trace_of (Connect env cenv eh addr opts tt tr)) =
        reactor_starts tr).
Proof.
  intros Hp. split; intros Hf.
  - rewrite (Serve_setup_failure env addr opts network address e tr Hp Hf).
    split; [reflexivity|]. simpl.
    rewrite reactor_starts_app, reactor_starts_removed. lia.
  - rewrite (Connect_setup_failure env cenv eh addr opts network address e
               tr Hp Hf).
    split; reflexivity.
Qed.

Lemma setup_errors_returned_before_any_reactor_witness :
  let env := Samples.sample_net false false in
  parseAddr "127.0.0.1:80" = Some ("tcp"%string, "127.0.0.1:80"%string)
  /\ ServeSetupFailure env "tcp" "127.0.0.1:80" (initOptions [])
       (errorString "address already in use")
  /\ Serve env "127.0.0.1:80" [] tt [] =
     Done (Some (errorString "address already in use")) tt [EvListenerClose]
  /\ ConnectSetupFailure env "tcp" "127.0.0.1:80"
       (errorString "no such host")
  /\ Connect env Samples.idle_clientEnv Samples.none_handler
       "127.0.0.1:80" [] tt [] =
     Done (Some (errorString "no such host")) tt [].
Proof.
  intros env.
  assert (parseAddr "127.0.0.1:80" = Some ("tcp"%string, "127.0.0.1:80"%string))
    as Hp by reflexivity.
  assert (ServeSetupFailure env "tcp" "127.0.0.1:80" (initOptions [])
            (errorString "address already in use")) as Hs
    by (apply ListenFails; reflexivity).
  assert (ConnectSetupFailure env "tcp" "127.0.0.1:80"
            (errorString "no such host")) as Hc
    by (apply ResolutionFails; reflexivity).
  destruct (setup_errors_returned_before_any_reactor env
              Samples.idle_clientEnv Samples.none_handler "127.0.0.1:80" []
              "tcp" "127.0.0.1:80" (errorString "address already in use")
              [] Hp) as [H1 _].
  destruct (setup_errors_returned_before_any_reactor env
              Samples.idle_clientEnv Samples.none_handler "127.0.0.1:80" []
              "tcp" "127.0.0.1:80" (errorString "no such host")
              [] Hp) as [_ H2].
  split; [exact Hp|]. split; [exact Hs|].
  split; [exact (proj1 (H1 Hs))|]. split; [exact Hc|].
  exact (proj1 (H2 Hc)).
Defined.

(** When nothing fails, the orchestrators are entered. *)
Example Serve_reaches_serve :
  trace_of (Serve (Samples.sample_net true true) "tcp://127.0.0.1:80" [] tt [])
  = [EvServe (mkListener (Some 2%nat) (Some "0.0.0.0:0"%string) None None 0
                "tcp" "127.0.0.1:80") zeroOptions;
     EvListenerClose].
Proof. reflexivity. Qed.

Example Connect_reaches_connect :
  Connect (Samples.sample_net true true) Samples.idle_clientEnv
    Samples.none_handler "udp://127.0.0.1:5555" [] tt [] =
  Parked tt [EvOpenPoller; EvAddRead 7; EvGoMainReactor;
             EvOnConnectionEstablished; EvCondLock; EvCondWait].
Proof. reflexivity. Qed.

End SetupFacts.

(** ** [options.go]: how options combine *)

Module OptsFacts.
Import Go Opts Data More.
Local Open Scope list_scope.

Lemma initOptions_app (a b : list Opts.Option) :
  initOptions (a ++ b) =
    fold_left (fun opts option => option opts) b (initOptions a).
Proof. unfold initOptions. apply fold_left_app. Qed.

(** X1: a setter given last decides its field, and leaves every other field
    as the options before it have left them. *)
Theorem last_setter_decides_its_field (opts : list Opts.Option) :
  let o := initOptions opts in
  (forall b, initOptions (opts ++ [WithMulticore b]) =
     mkOptions b (ReusePort o) (Ticker o) (TCPKeepAlive o) (Codec o))
  /\ (forall b, initOptions (opts ++ [WithReusePort b]) =
     mkOptions (Multicore o) b (Ticker o) (TCPKeepAlive o) (Codec o))
  /\ (forall b, initOptions (opts ++ [WithTicker b]) =
     mkOptions (Multicore o) (ReusePort o) b (TCPKeepAlive o) (Codec o))
  /\ (forall d, initOptions (opts ++ [WithTCPKeepAlive d]) =
     mkOptions (Multicore o) (ReusePort o) (Ticker o) d (Codec o))
  /\ (forall c, initOptions (opts ++ [WithCodec c]) =
     mkOptions (Multicore o) (ReusePort o) (Ticker o) (TCPKeepAlive o) c).
Proof.
  intros o. repeat split; intros; rewrite initOptions_app; reflexivity.
Qed.

(** X2: [WithOptions] replaces the whole record, so every option given
    before it is lost: only [WithOptions] and what follows it count. *)
Theorem WithOptions_discards_earlier_options
    (pre post : list Opts.Option) (options : Options) :
  initOptions (pre ++ WithOptions options :: post) =
    fold_left (fun opts option => option opts) post options.
Proof. rewrite initOptions_app. reflexivity. Qed.

Lemma setter_comm s1 f1 s2 f2 (o : Options) :
  setter s1 f1 -> setter s2 f2 -> f1 <> f2 -> s1 (s2 o) = s2 (s1 o).
Proof.
  intros H1 H2 Hne. destruct H1, H2; try reflexivity; congruence.
Qed.

Lemma setter_overwrite s1 s2 f (o : Options) :
  setter s1 f -> setter s2 f -> s2 (s1 o) = s2 o.
Proof.
  intros H1 H2. inversion H1; subst; inversion H2; subst; reflexivity.
Qed.

(** X3: two setters of different fields can be given in either order, and
    of two setters of the same field given one after the other only the
    later counts, wherever they stand in the list of options. *)
Theorem setters_commute_or_overwrite
    (pre post : list Opts.Option) (s1 s2 : Opts.Option) (f1 f2 : field) :
  setter s1 f1 -> setter s2 f2 ->
  (f1 <> f2 ->
     initOptions (pre ++ s1 :: s2 :: post) =
     initOptions (pre ++ s2 :: s1 :: post))
  /\ (f1 = f2 ->
     initOptions (pre ++ s1 :: s2 :: post) = initOptions (pre ++ s2 :: post)).
Proof.
  intros H1 H2. split; intros Hf; rewrite !initOptions_app; simpl.
  - now rewrite (setter_comm s2 f2 s1 f1 _ H2 H1) by congruence.
  - subst f2. now rewrite (setter_overwrite s1 s2 f1 _ H1 H2).
Qed.

Lemma setters_commute_or_overwrite_witness :
  setter (WithTicker true) FTicker /\ setter (WithMulticore true) FMulticore
  /\ FTicker <> FMulticore
  /\ initOptions [WithTicker true; WithMulticore true] =
     initOptions [WithMulticore true; WithTicker true]
  /\ setter (WithTicker false) FTicker
  /\ initOptions [WithTicker true; WithTicker false] =
     initOptions [WithTicker false].
Proof.
  assert (setter (WithTicker true) FTicker) as H1 by constructor.
  assert (setter (WithMulticore true) FMulticore) as H2 by constructor.
  assert (setter (WithTicker false) FTicker) as H3 by constructor.
  assert (FTicker <> FMulticore) as Hne by discriminate.
  destruct (setters_commute_or_overwrite [] [] _ _ _ _ H1 H2) as [Hc _].
  destruct (setters_commute_or_overwrite [] [] _ _ _ _ H1 H3) as [_ Ho].
  split; [exact H1|]. split; [exact H2|]. split; [exact Hne|].
  split; [exact (Hc Hne)|]. split; [exact H3|]. exact (Ho eq_refl).
Defined.

End OptsFacts.

(** ** [gnet.go]: more on [parseAddr] *)

Module AddrMore.
Import GoStrings GoStringsFacts Addr AddrFacts.

(** [parseAddr] on an address that holds ["://"], by the place of the first
    one. *)
Lemma parseAddr_at_first_sep (addr : string) (m : nat) :
  Index addr "://" = Some m ->
  let n := str_take m addr in
  let r := str_drop (m + String.length "://") addr in
  addr = n ++ "://" ++ r
  /\ Index n "://" = None
  /\ parseAddr addr = Some (n, hd "" (Split r "://"))
  /\ Count addr "://" = S (Count r "://").
Proof.
  intros Hi n r. destruct (Index_Some_split _ _ _ Hi) as [Hs Hn].
  specialize (Hn sep_nonempty). fold n r in Hs, Hn.
  split; [exact Hs|]. split; [exact Hn|]. split.
  - rewrite Hs at 1. now apply parseAddr_sep_app.
  - now apply Count_Some.
Qed.

(** X4: [parseAddr] never panics: its two slice indexings are in range for
    every address. *)
Theorem parseAddr_never_panics (addr : string) :
  exists network address : string, parseAddr addr = Some (network, address).
Proof.
  destruct (Index addr "://") as [m|] eqn:Hi.
  - destruct (parseAddr_at_first_sep addr m Hi) as (_ & _ & H & _). eauto.
  - rewrite (parseAddr_bare addr Hi). eauto.
Qed.

(** X5: [parseAddr] does not check the scheme: whatever stands before a
    single ["://"] is returned as the network, the empty string as well, and
    whatever stands after it as the address, the empty string as well. *)
Theorem parseAddr_takes_any_scheme (scheme rest : string) :
  Contains scheme "://" = false -> Contains rest "://" = false ->
  parseAddr (scheme ++ "://" ++ rest) = Some (scheme, rest).
Proof.
  intros Hs Hr. apply Contains_false in Hs. apply Contains_false in Hr.
  rewrite (parseAddr_sep_app _ _ Hs), (Split_None _ _ sep_nonempty Hr).
  reflexivity.
Qed.

Lemma parseAddr_takes_any_scheme_witness :
  (Contains "" "://" = false /\ Contains "host:1" "://" = false
   /\ parseAddr "://host:1" = Some (""%string, "host:1"%string))
  /\ (Contains "http" "://" = false /\ Contains "" "://" = false
   /\ parseAddr "http://" = Some ("http"%string, ""%string)).
Proof.
  split.
  - split; [reflexivity|]. split; [reflexivity|].
    exact (parseAddr_takes_any_scheme "" "host:1" eq_refl eq_refl).
  - split; [reflexivity|]. split; [reflexivity|].
    exact (parseAddr_takes_any_scheme "http" "" eq_refl eq_refl).
Defined.

(** X6: for an address that holds ["://"], the network and the address
    that [parseAddr] returns hold no ["://"], and the input is the network,
    ["://"], the address and then either nothing or a further ["://"] and
    more. *)
Theorem parseAddr_parts_hold_no_sep (addr network address : string) :
  Contains addr "://" = true ->
  parseAddr addr = Some (network, address) ->
  Contains network "://" = false /\ Contains address "://" = false
  /\ exists rest : string,
       addr = network ++ "://" ++ address ++ rest
       /\ (rest = "" \/ exists more : string, rest = "://" ++ more).
Proof.
  intros Hc Hp. unfold Contains in Hc.
  destruct (Index addr "://") as [m|] eqn:Hi; [clear Hc | discriminate].
  destruct (parseAddr_at_first_sep addr m Hi) as (Hs & Hn & Hq & _).
  set (r := str_drop (m + String.length "://") addr) in *.
  rewrite Hq in Hp.
  assert (network = str_take m addr) as -> by congruence.
  assert (address = hd "" (Split r "://")) as -> by congruence.
  split; [now apply Contains_false|].
  destruct (Index r "://") as [k|] eqn:Hr.
  - destruct (Index_Some_split _ _ _ Hr) as [Hs' Hn'].
    rewrite (Split_Some _ _ _ sep_nonempty Hr). simpl hd.
    split; [apply Contains_false; now apply Hn', sep_nonempty|].
    exists ("://" ++ str_drop (k + String.length "://") r).
    split; [now rewrite <- Hs' | eauto].
  - rewrite (Split_None _ _ sep_nonempty Hr). simpl hd.
    split; [now apply Contains_false|].
    exists "". split; [|now left].
    replace (r ++ "") with r; [exact Hs|].
    clear. induction r as [|c r IH]; [reflexivity|].
    now rewrite append_cons, <- IH.
Qed.

Lemma parseAddr_parts_hold_no_sep_witness :
  Contains "udp://a:1://b" "://" = true
  /\ parseAddr "udp://a:1://b" = Some ("udp"%string, "a:1"%string)
  /\ Contains "udp" "://" = false /\ Contains "a:1" "://" = false.
Proof.
  assert (Contains "udp://a:1://b" "://" = true) as Hc by reflexivity.
  assert (parseAddr "udp://a:1://b" = Some ("udp"%string, "a:1"%string))
    as Hp by reflexivity.
  destruct (parseAddr_parts_hold_no_sep _ _ _ Hc Hp) as (H1 & H2 & _).
  split; [exact Hc|]. split; [exact Hp|]. split; [exact H1 | exact H2].
Defined.

Lemma append_inj_l (a b c : string) : a ++ b = a ++ c -> b = c.
Proof.
  induction a as [|x a IH]; rewrite ?append_nil, ?append_cons; [auto|].
  intros H. injection H as H. auto.
Qed.

(** X7: putting the network, ["://"] and the address together again gives
    the input back exactly when the input holds ["://"] once; with two or
    more, what follows the second one is lost. *)
Theorem parseAddr_lossless_iff_one_sep (addr network address : string) :
  Contains addr "://" = true ->
  parseAddr addr = Some (network, address) ->
  (addr = network ++ "://" ++ address <-> Count addr "://" = 1).
Proof.
  intros Hc Hp. unfold Contains in Hc.
  destruct (Index addr "://") as [m|] eqn:Hi; [clear Hc | discriminate].
  destruct (parseAddr_at_first_sep addr m Hi) as (Hs & Hn & Hq & Hcount).
  set (n := str_take m addr) in *.
  set (r := str_drop (m + String.length "://") addr) in *.
  rewrite Hq in Hp.
  assert (network = n) as -> by congruence.
  assert (address = hd "" (Split r "://")) as -> by congruence.
  rewrite Hcount.
  destruct (Index r "://") as [k|] eqn:Hr.
  - rewrite (Count_Some _ _ _ sep_nonempty Hr).
    rewrite (Split_Some _ _ _ sep_nonempty Hr). simpl hd.
    split; [|discriminate]. intros He. exfalso.
    rewrite Hs in He at 1. apply append_inj_l, append_inj_l in He.
    destruct (Index_Some_split _ _ _ Hr) as [Hs' _].
    rewrite He in Hs' at 1.
    apply (f_equal String.length) in Hs'.
    rewrite !length_app in Hs'. simpl in Hs'. lia.
  - rewrite (Count_None _ _ Hr), (Split_None _ _ sep_nonempty Hr). simpl hd.
    split; [reflexivity | intros _; exact Hs].
Qed.

Lemma parseAddr_lossless_iff_one_sep_witness :
  Contains "tcp://a://b" "://" = true
  /\ parseAddr "tcp://a://b" = Some ("tcp"%string, "a"%string)
  /\ "tcp://a://b" <> "tcp" ++ "://" ++ "a"
  /\ Count "tcp://a://b" "://" <> 1.
Proof.
  assert (Contains "tcp://a://b" "://" = true) as Hc by reflexivity.
  assert (parseAddr "tcp://a://b" = Some ("tcp"%string, "a"%string))
    as Hp by reflexivity.
  pose proof (parseAddr_lossless_iff_one_sep _ _ _ Hc Hp) as H.
  assert (Count "tcp://a://b" "://" <> 1) as Hn by (vm_compute; lia).
  split; [exact Hc|]. split; [exact Hp|]. split; [|exact Hn].
  intros He. apply Hn. apply H. exact He.
Defined.

End AddrMore.

(** ** [gnet.go]: more on [Serve] and [Connect] *)

Module ServeFacts.
Import GoStrings Addr Go Opts Data Eff World Gnet Obs More EffFacts AddrMore.
Local Open Scope list_scope.

(** [Serve] on every path. *)
Lemma Serve_outcome env addr opts network address tr :
  parseAddr addr = Some (network, address) ->
  Serve env addr opts tt tr =
    Done (fst (Serve_tail env network address (initOptions opts))) tt
      (tr ++ removed env network address
          ++ snd (Serve_tail env network address (initOptions opts))
          ++ [EvListenerClose]).
Proof.
  intros Hp. unfold Serve, defer.
  rewrite (bind_Done (deref (parseAddr addr)) _ tt tr (network, address) tt tr)
    by now rewrite Hp.
  cbn [ln_network ln_addr ln_ln ln_lnaddr ln_pconn ln_f ln_fd].
  assert ((if String.eqb network "unix"
           then emit (EvRemoveAll address);;
                sniffError (os_RemoveAll env address)
           else mret tt) tt tr
          = Done tt tt (tr ++ removed env network address)) as Hr.
  { unfold removed. destruct (String.eqb network "unix").
    - unfold mbind at 1, M_bind at 1, emit at 1.
      now rewrite trace_sniffError, <- app_assoc.
    - now rewrite app_nil_r. }
  rewrite (bind_Done _ _ _ _ _ _ _ Hr). clear Hr.
  unfold Serve_tail, listen_result, listening.
  destruct (String.eqb network "udp");
    match goal with
    | |- context [if ReusePort ?o then ?a else ?b] =>
        destruct (if ReusePort o then a else b) as [h|e]
    end;
    cbn [fst snd ln_network ln_addr ln_ln ln_lnaddr ln_pconn ln_f ln_fd];
    unfold mret, M_ret, emit, mbind, M_bind, deref;
    cbn [fst snd ln_network ln_addr ln_ln ln_lnaddr ln_pconn ln_f ln_fd];
    unfold mret, M_ret; cbn beta iota;
    first
      [ solve [cbn [app]; rewrite <- ?app_assoc; reflexivity]
      | destruct (listener_system env _) as [ln' [e'|]];
        cbn [fst snd app]; rewrite <- ?app_assoc; reflexivity ].
Qed.

Lemma listener_closes_app tr new :
  listener_closes (tr ++ new) = listener_closes tr + listener_closes new.
Proof. unfold listener_closes. now rewrite filter_app, length_app. Qed.

Lemma listener_closes_removed env network address :
  listener_closes (removed env network address) = 0.
Proof.
  unfold removed. destruct (String.eqb network "unix"); [|reflexivity].
  now destruct (os_RemoveAll env address).
Qed.

Lemma listener_closes_tail env network address options :
  listener_closes (snd (Serve_tail env network address options)) = 0.
Proof.
  unfold Serve_tail. destruct (listen_result env network address options);
    [|reflexivity].
  now destruct (listener_system env _) as [ln' [e'|]].
Qed.

(** X8: when [Serve] comes to an end, after a failed setup or after
    [serve] has returned, the deferred [ln.close()] has run exactly once
    and is the last thing [Serve] has done, on every path. *)
Theorem Serve_closes_the_listener_when_it_ends
    (env : Net) (addr : string) (opts : list Opts.Option) (tr : list event) :
  match Serve env addr opts tt tr with
  | Done _ _ t | Panicked _ t =>
      exists before : list event,
        t = tr ++ before ++ [EvListenerClose] /\ listener_closes before = 0
  | Parked _ t => exists new, t = tr ++ new /\ listener_closes new = 0
  end.
Proof.
  destruct (AddrFacts.parseAddr_total addr) as [[network address] Hp].
  rewrite (Serve_outcome env addr opts network address tr Hp).
  exists (removed env network address
          ++ snd (Serve_tail env network address (initOptions opts))).
  split; [now rewrite <- app_assoc|].
  now rewrite listener_closes_app, listener_closes_removed,
    listener_closes_tail.
Qed.

(** X9: when the listen call and [ln.system] succeed, [Serve] enters
    [serve] exactly once, with the listener as [ln.system] has left it,
    after the removal of the Unix socket path and before the listener is
    closed, and returns what [serve] returns. *)
Theorem Serve_enters_serve_after_setup
    (env : Net) (addr : string) (opts : list Opts.Option)
    (network address : string) (h : nat) (ln : listener) (tr : list event) :
  parseAddr addr = Some (network, address) ->
  listen_result env network address (initOptions opts) = Ok h ->
  listener_system env (listening env network address h) = (ln, None) ->
  Serve env addr opts tt tr =
    Done (serve env ln (initOptions opts)) tt
      (tr ++ removed env network address
          ++ [EvServe ln (initOptions opts); EvListenerClose]).
Proof.
  intros Hp Hl Hs.
  rewrite (Serve_outcome env addr opts network address tr Hp).
  unfold Serve_tail. now rewrite Hl, Hs.
Qed.

Lemma Serve_enters_serve_after_setup_witness :
  let env := Samples.sample_net true true in
  let ln := mkListener None (Some "0.0.0.0:0"%string) (Some 2%nat) None 0
              "udp" "127.0.0.1:53" in
  parseAddr "udp://127.0.0.1:53" = Some ("udp"%string, "127.0.0.1:53"%string)
  /\ listen_result env "udp" "127.0.0.1:53" (initOptions []) = Ok 2%nat
  /\ listener_system env (listening env "udp" "127.0.0.1:53" 2%nat) = (ln, None)
  /\ Serve env "udp://127.0.0.1:53" [] tt [] =
     Done None tt [EvServe ln zeroOptions; EvListenerClose].
Proof.
  intros env ln.
  assert (parseAddr "udp://127.0.0.1:53" =
          Some ("udp"%string, "127.0.0.1:53"%string)) as Hp by reflexivity.
  assert (listen_result env "udp" "127.0.0.1:53" (initOptions []) = Ok 2%nat)
    as Hl by reflexivity.
  assert (listener_system env (listening env "udp" "127.0.0.1:53" 2%nat) =
          (ln, None)) as Hs by reflexivity.
  split; [exact Hp|]. split; [exact Hl|]. split; [exact Hs|].
  exact (Serve_enters_serve_after_setup env "udp://127.0.0.1:53" [] _ _ _ _ []
           Hp Hl Hs).
Defined.

Lemma path_removals_app tr new :
  path_removals (tr ++ new) = path_removals tr + path_removals new.
Proof. unfold path_removals. now rewrite filter_app, length_app. Qed.

Lemma path_removals_tail env network address options :
  path_removals (snd (Serve_tail env network address options)) = 0.
Proof.
  unfold Serve_tail. destruct (listen_result env network address options);
    [|reflexivity].
  now destruct (listener_system env _) as [ln' [e'|]].
Qed.

Lemma logs_of_tail env network address options :
  Forall (fun e => match e with EvLogPrintln _ => False | _ => True end)
    (snd (Serve_tail env network address options) ++ [EvListenerClose]).
Proof.
  unfold Serve_tail. destruct (listen_result env network address options);
    [|repeat constructor].
  destruct (listener_system env _) as [ln' [e'|]]; repeat constructor.
Qed.

(** X10: [Serve] calls [os.RemoveAll] exactly when the parsed network is
    ["unix"], once, on the parsed address and before anything else; a
    failure of it is logged right after the call and changes nothing else:
    whatever [os.RemoveAll] returns, [Serve] returns the same value and
    does the same things afterwards, among which there is no further
    removal and no further log line. *)
Theorem Serve_removes_unix_path_and_ignores_failure
    (env : Net) (addr : string) (opts : list Opts.Option)
    (network address : string) (tr : list event) :
  parseAddr addr = Some (network, address) ->
  exists (r : option error) (rest : list event),
    (forall f : string -> option error,
       Serve (with_RemoveAll f env) addr opts tt tr =
         Done r tt
           (tr ++ (if String.eqb network "unix"
                   then EvRemoveAll address :: logged (f address)
                   else [])
               ++ rest))
    /\ Serve env addr opts tt tr =
         Done r tt
           (tr ++ (if String.eqb network "unix"
                   then EvRemoveAll address
                          :: logged (os_RemoveAll env address)
                   else [])
               ++ rest)
    /\ path_removals rest = 0
    /\ Forall (fun e => match e with EvLogPrintln _ => False | _ => True end)
         rest.
Proof.
  intros Hp.
  exists (fst (Serve_tail env network address (initOptions opts))),
         (snd (Serve_tail env network address (initOptions opts))
          ++ [EvListenerClose]).
  split; [|split; [|split]].
  - intros f.
    rewrite (Serve_outcome (with_RemoveAll f env) addr opts network address tr
               Hp).
    reflexivity.
  - rewrite (Serve_outcome env addr opts network address tr Hp). reflexivity.
  - rewrite path_removals_app, path_removals_tail. reflexivity.
  - apply logs_of_tail.
Qed.

Lemma Serve_removes_unix_path_and_ignores_failure_witness :
  let env := Samples.sample_net true true in
  let denied := fun _ : string => Some (errorString "permission denied") in
  let ln := mkListener (Some 2%nat) (Some "0.0.0.0:0"%string) None None 0
              "unix" "gnet.sock" in
  parseAddr "unix://gnet.sock" = Some ("unix"%string, "gnet.sock"%string)
  /\ Serve (with_RemoveAll denied env) "unix://gnet.sock" [] tt [] =
     Done None tt
       [EvRemoveAll "gnet.sock"; EvLogPrintln (errorString "permission denied");
        EvServe ln zeroOptions; EvListenerClose]
  /\ Serve env "unix://gnet.sock" [] tt [] =
     Done None tt
       [EvRemoveAll "gnet.sock"; EvServe ln zeroOptions; EvListenerClose].
Proof.
  intros env denied ln.
  assert (parseAddr "unix://gnet.sock" =
          Some ("unix"%string, "gnet.sock"%string)) as Hp by reflexivity.
  destruct (Serve_removes_unix_path_and_ignores_failure env
              "unix://gnet.sock" [] _ _ [] Hp) as (r & rest & Hf & He & _).
  split; [exact Hp|].
  assert (r = None /\ rest = [EvServe ln zeroOptions; EvListenerClose])
    as [-> ->].
  { assert (Serve env "unix://gnet.sock" [] tt [] =
            Done None tt
              [EvRemoveAll "gnet.sock"; EvServe ln zeroOptions;
               EvListenerClose]) as Hc by reflexivity.
    rewrite Hc in He. simpl in He. injection He as <- <-. auto. }
  split; [exact (Hf denied) | exact He].
Defined.

(** [Connect] when every step of its setup succeeds. *)
Lemma Connect_after_setup env cenv eh addr opts network address raddr c f tr :
  parseAddr addr = Some (network, address) ->
  resolve_result env network address = Ok raddr ->
  dial_result env network raddr = Ok c ->
  Conn_File env c = Ok f ->
  unix_SetNonblock env (Fd f) true = None ->
  Connect env cenv eh addr opts tt tr =
    connect cenv eh (mkConnection (Some c) (Some f) (Fd f) network address)
      (initOptions opts) tt tr.
Proof.
  intros Hp Hr Hd Hf Hn. unfold Connect.
  rewrite (bind_Done (deref (parseAddr addr)) _ tt tr (network, address) tt tr)
    by now rewrite Hp.
  cbn [con_network con_addr con_pconn con_f con_fd].
  unfold resolve_result, dial_result in *.
  destruct (String.eqb network "udp"); rewrite Hr;
    match type of Hd with
    | context [net_DialUDP ?v ?n ?x] => destruct (net_DialUDP v n x)
    | context [net_DialTCP ?v ?n ?x] => destruct (net_DialTCP v n x)
    end;
    inversion Hd; subst;
    cbn [con_network con_addr con_pconn con_f con_fd];
    rewrite Hf;
    unfold mbind, M_bind, deref, mret, M_ret;
    cbn [con_network con_addr con_pconn con_f con_fd];
    now rewrite Hn.
Qed.

(** X11: when resolution, dial, [File] and [SetNonblock] succeed,
    [Connect] does what [connect] does on the connection that holds the
    dialed socket, its file, the descriptor of that file and the parsed
    network and address, with the options folded by [initOptions]. *)
Theorem Connect_hands_over_the_dialed_connection
    (env : Net) (cenv : ClientEnv) (eh : EventHandler) (addr : string)
    (opts : list Opts.Option) (network address raddr : string)
    (c : netConn) (f : File) (tr : list event) :
  parseAddr addr = Some (network, address) ->
  resolve_result env network address = Ok raddr ->
  dial_result env network raddr = Ok c ->
  Conn_File env c = Ok f ->
  unix_SetNonblock env (Fd f) true = None ->
  Connect env cenv eh addr opts tt tr =
    connect cenv eh (mkConnection (Some c) (Some f) (Fd f) network address)
      (initOptions opts) tt tr.
Proof. apply Connect_after_setup. Qed.

Lemma Connect_hands_over_the_dialed_connection_witness :
  let env := Samples.sample_net true true in
  parseAddr "udp://127.0.0.1:5555" =
    Some ("udp"%string, "127.0.0.1:5555"%string)
  /\ resolve_result env "udp" "127.0.0.1:5555" = Ok "127.0.0.1:5555"%string
  /\ dial_result env "udp" "127.0.0.1:5555" = Ok (UDPConn 1)
  /\ Conn_File env (UDPConn 1) = Ok (mkFile 7)
  /\ unix_SetNonblock env 7 true = None
  /\ Connect env Samples.idle_clientEnv Samples.none_handler
       "udp://127.0.0.1:5555" [WithTicker true] tt [] =
     connect Samples.idle_clientEnv Samples.none_handler
       (mkConnection (Some (UDPConn 1)) (Some (mkFile 7)) 7 "udp"
          "127.0.0.1:5555") (WithTicker true zeroOptions) tt [].
Proof.
  intros env.
  assert (parseAddr "udp://127.0.0.1:5555" =
          Some ("udp"%string, "127.0.0.1:5555"%string)) as Hp by reflexivity.
  assert (resolve_result env "udp" "127.0.0.1:5555" =
          Ok "127.0.0.1:5555"%string) as Hr by reflexivity.
  assert (dial_result env "udp" "127.0.0.1:5555" = Ok (UDPConn 1)) as Hd
    by reflexivity.
  assert (Conn_File env (UDPConn 1) = Ok (mkFile 7)) as Hf by reflexivity.
  assert (unix_SetNonblock env 7 true = None) as Hn by reflexivity.
  split; [exact Hp|]. split; [exact Hr|]. split; [exact Hd|].
  split; [exact Hf|]. split; [exact Hn|].
  exact (Connect_hands_over_the_dialed_connection env Samples.idle_clientEnv
           Samples.none_handler "udp://127.0.0.1:5555" [WithTicker true]
           _ _ _ _ _ [] Hp Hr Hd Hf Hn).
Defined.

(** X12: when the setup of [Connect] succeeds and the poller cannot be
    opened, [Connect] returns the error of [OpenPoller] after logging it
    once; no reactor goroutine is launched, the connection-established
    callback is not fired, and nothing waits for a shutdown. *)
Theorem Connect_returns_poller_failure
    (env : Net) (cenv : ClientEnv) (eh : EventHandler) (addr : string)
    (opts : list Opts.Option) (network address raddr : string)
    (c : netConn) (f : File) (e : error) (tr : list event) :
  parseAddr addr = Some (network, address) ->
  resolve_result env network address = Ok raddr ->
  dial_result env network raddr = Ok c ->
  Conn_File env c = Ok f ->
  unix_SetNonblock env (Fd f) true = None ->
  netpoll_OpenPoller cenv = Fail e ->
  Connect env cenv eh addr opts tt tr =
    Done (Some e) tt (tr ++ [EvOpenPoller; EvLogPrintf e]).
Proof.
  intros Hp Hr Hd Hf Hn Ho.
  rewrite (Connect_after_setup env cenv eh addr opts network address raddr c f
             tr Hp Hr Hd Hf Hn).
  now apply ClientFacts.connect_not_started.
Qed.

Lemma Connect_returns_poller_failure_witness :
  let env := Samples.sample_net true true in
  let cenv := mkClientEnv (Fail (errorString "too many open files"))
                (fun fd => mkConn fd [] []) (fun _ _ => None) (fun _ => None)
                (fun _ _ => mret tt) false false in
  parseAddr "10.0.0.1:80" = Some ("tcp"%string, "10.0.0.1:80"%string)
  /\ resolve_result env "tcp" "10.0.0.1:80" = Ok "10.0.0.1:80"%string
  /\ dial_result env "tcp" "10.0.0.1:80" = Ok (TCPConn 1)
  /\ Conn_File env (TCPConn 1) = Ok (mkFile 7)
  /\ unix_SetNonblock env 7 true = None
  /\ netpoll_OpenPoller cenv = Fail (errorString "too many open files")
  /\ Connect env cenv Samples.shutdown_handler "10.0.0.1:80" [] tt [] =
     Done (Some (errorString "too many open files")) tt
       [EvOpenPoller; EvLogPrintf (errorString "too many open files")].
Proof.
  intros env cenv.
  assert (parseAddr "10.0.0.1:80" = Some ("tcp"%string, "10.0.0.1:80"%string))
    as Hp by reflexivity.
  assert (resolve_result env "tcp" "10.0.0.1:80" = Ok "10.0.0.1:80"%string)
    as Hr by reflexivity.
  assert (dial_result env "tcp" "10.0.0.1:80" = Ok (TCPConn 1)) as Hd
    by reflexivity.
  assert (Conn_File env (TCPConn 1) = Ok (mkFile 7)) as Hf by reflexivity.
  assert (unix_SetNonblock env 7 true = None) as Hn by reflexivity.
  assert (netpoll_OpenPoller cenv = Fail (errorString "too many open files"))
    as Ho by reflexivity.
  split; [exact Hp|]. split; [exact Hr|]. split; [exact Hd|].
  split; [exact Hf|]. split; [exact Hn|]. split; [exact Ho|].
  exact (Connect_returns_poller_failure env cenv Samples.shutdown_handler
           "10.0.0.1:80" [] _ _ _ _ _ _ [] Hp Hr Hd Hf Hn Ho).
Defined.

End ServeFacts.

(** ** [client.go]: more on start, stop and [connect] *)

Module ClientMore.
Import Go Opts Data Eff World Gnet Reactor Obs More EffFacts ClientFacts.
Local Open Scope list_scope.

(** X13: when the poller opens, [activateReactors], from any client,
    returns nil and leaves a main loop of index 0 on that poller whose
    table holds exactly one entry: the descriptor of the connection, bound
    to the connection handle that the client holds from then on.  The
    wait-group counter has gone up by one, one reactor goroutine has been
    launched, and the [Once] and the options are as they were. *)
Theorem activateReactors_registers_the_connection
    (cenv : ClientEnv) (cl : Client) (p : nat) (tr : list event) :
  netpoll_OpenPoller cenv = Ok p ->
  let fd := con_fd (cl_connection cl) in
  let c := newClientConn cenv fd in
  exists (cl' : Client) (lp : loop),
    Client_activateReactors cenv cl tr =
      Done None cl' (tr ++ [EvOpenPoller; EvAddRead fd; EvGoMainReactor])
    /\ cl_mainLoop cl' = Some lp /\ idx lp = 0%Z /\ poller lp = p
    /\ cl_conn cl' = Some c
    /\ connections lp !! fd = Some c
    /\ (forall fd' : Z, fd' <> fd -> connections lp !! fd' = None)
    /\ cl_wg cl' = cl_wg cl + 1
    /\ cl_once cl' = cl_once cl
    /\ cl_connection cl' = cl_connection cl
    /\ cl_opts cl' = cl_opts cl.
Proof.
  intros Hp fd c.
  exists (mkClient (cl_connection cl) (cl_opts cl)
            (Some (mkLoop 0 p (<[fd := c]> ∅))) (cl_wg cl + 1) (cl_once cl)
            (Some c)),
         (mkLoop 0 p (<[fd := c]> ∅)).
  split.
  - unfold Client_activateReactors.
    unfold mbind at 1, M_bind at 1, emit at 1. rewrite Hp.
    unfold mbind, M_bind, emit, get, put, deref, mret, M_ret. simpl.
    now rewrite <- !app_assoc.
  - cbn [cl_mainLoop cl_conn cl_wg cl_once cl_connection cl_opts idx poller
         connections].
    repeat split; try reflexivity.
    + apply lookup_insert_eq.
    + intros fd' Hne. rewrite lookup_insert_ne by congruence.
      apply lookup_empty.
Qed.

Lemma activateReactors_registers_the_connection_witness :
  let cl := newClient Samples.sample_connection zeroOptions in
  netpoll_OpenPoller Samples.idle_clientEnv = Ok 3%nat
  /\ exists (cl' : Client) (lp : loop),
       Client_activateReactors Samples.idle_clientEnv cl [] =
         Done None cl' [EvOpenPoller; EvAddRead 7; EvGoMainReactor]
       /\ cl_mainLoop cl' = Some lp
       /\ connections lp !! 7%Z = Some (mkConn 7 [] [])
       /\ cl_wg cl' = 1.
Proof.
  intros cl.
  assert (netpoll_OpenPoller Samples.idle_clientEnv = Ok 3%nat) as Hp
    by reflexivity.
  destruct (activateReactors_registers_the_connection Samples.idle_clientEnv
              cl 3%nat [] Hp)
    as (cl' & lp & H1 & H2 & _ & _ & _ & H3 & _ & H4 & _).
  split; [exact Hp|]. exists cl', lp.
  split; [exact H1|]. split; [exact H2|]. split; [exact H3 | exact H4].
Defined.

(** X15: after a successful start, whenever [connect] returns it returns
    nil, whatever the callback has answered; it returns only if shutdown
    has been signalled, and by then the callback has been fired, the
    sentinel job has been injected, the reactor goroutine has been waited
    for and the poller has been closed, in this order. *)
Theorem connect_returns_nil_after_teardown
    (cenv : ClientEnv) (eh : EventHandler) (con : connection)
    (options : Options) (p : nat) (tr : list event)
    (r : option error) (t : list event) :
  netpoll_OpenPoller cenv = Ok p ->
  connect cenv eh con options tt tr = Done r tt t ->
  let lp := mkLoop 0 p (<[con_fd con := newClientConn cenv (con_fd con)]> ∅) in
  r = None /\ shutdown_signalled cenv = true
  /\ t = tr ++ [EvOpenPoller; EvAddRead (con_fd con); EvGoMainReactor;
                EvOnConnectionEstablished]
            ++ waited ++ injected cenv lp ++ [EvWgWait]
            ++ closed cenv lp.
Proof.
  intros Hp H lp. revert H.
  rewrite (connect_started cenv eh p con options tr Hp).
  rewrite (stop_outcome cenv (started_client cenv p con options) lp _ eq_refl).
  cbn [started_client cl_wg].
  destruct (shutdown_signalled cenv); [|discriminate].
  cbv zeta. destruct (reactors_finish cenv); cbn [forget]; [|discriminate].
  intros H. injection H as <- <-.
  split; [reflexivity|]. split; [reflexivity|].
  unfold waited, injected. subst lp.
  repeat (rewrite <- ?app_assoc; simpl). reflexivity.
Qed.

Lemma connect_returns_nil_after_teardown_witness :
  let full := [EvOpenPoller; EvAddRead 7; EvGoMainReactor;
               EvOnConnectionEstablished; EvCondLock; EvCondWait;
               EvCondUnlock; EvTrigger sentinel; EvWgWait; EvPollerClose] in
  netpoll_OpenPoller Samples.finishing_clientEnv = Ok 3%nat
  /\ connect Samples.finishing_clientEnv Samples.shutdown_handler
       Samples.sample_connection zeroOptions tt [] = Done None tt full
  /\ shutdown_signalled Samples.finishing_clientEnv = true.
Proof.
  intros full.
  assert (netpoll_OpenPoller Samples.finishing_clientEnv = Ok 3%nat) as Hp
    by reflexivity.
  assert (connect Samples.finishing_clientEnv Samples.shutdown_handler
            Samples.sample_connection zeroOptions tt [] = Done None tt full)
    as Hc by reflexivity.
  destruct (connect_returns_nil_after_teardown Samples.finishing_clientEnv
              Samples.shutdown_handler Samples.sample_connection zeroOptions
              3%nat [] None full Hp Hc) as (_ & Hs & _).
  split; [exact Hp|]. split; [exact Hc | exact Hs].
Defined.

End ClientMore.

(** ** [reactor_linux.go]: more on the reactors *)

Module ReactorMore.
Import Go Opts Data Eff World Gnet Reactor Obs More EffFacts ReactorFacts
  ClientFacts.
Local Open Scope list_scope.

(** X16: the reactor of a client that has just been started serves the
    descriptor of its connection and no other: a readiness event on any
    other descriptor is ignored, and one on the connection's descriptor
    goes to the outbound or the inbound handler of the client's own
    connection handle, by the state of its outbound buffer. *)
Theorem started_client_serves_only_its_descriptor
    np (h : clientHandlers) (cenv : ClientEnv) (p : nat) (con : connection)
    (options : Options) (fd ev : Z) (job : option Job) (tr : list event) :
  let cl := started_client cenv p con options in
  let c := newClientConn cenv (con_fd con) in
  cl_conn cl = Some c
  /\ (fd <> con_fd con ->
      Client_mainReactor_callback np h fd ev job cl tr = Done None cl tr)
  /\ trace_of (Client_mainReactor_callback np h (con_fd con) ev job cl tr) =
     tr ++ (if IsEmpty (outboundBuffer c)
            then if has_event ev (InEvents np) then [EvLoopClientIn c] else []
            else if has_event ev (OutEvents np) then [EvLoopClientOut c]
                 else []).
Proof.
  intros cl c. split; [reflexivity|]. split.
  - intros Hne.
    apply (mainReactor_callback_unregistered np h fd ev job cl
             (mkLoop 0 p (<[con_fd con := c]> ∅)) tr eq_refl).
    cbn [connections]. rewrite lookup_insert_ne by congruence.
    apply lookup_empty.
  - rewrite (mainReactor_callback_registered np h (con_fd con) ev job cl
               (mkLoop 0 p (<[con_fd con := c]> ∅)) c tr eq_refl)
      by apply lookup_insert_eq.
    destruct (IsEmpty (outboundBuffer c));
      [destruct (has_event ev (InEvents np))
      |destruct (has_event ev (OutEvents np))];
      rewrite ?trace_invoke; simpl; rewrite ?app_nil_r; reflexivity.
Qed.

Lemma started_client_serves_only_its_descriptor_witness :
  let cl := started_client Samples.idle_clientEnv 3 Samples.sample_connection
              zeroOptions in
  (9 <> con_fd Samples.sample_connection)%Z
  /\ Client_mainReactor_callback Samples.sample_netpoll
       Samples.quiet_clientHandlers 9 1 None cl [] = Done None cl [].
Proof.
  intros cl.
  assert ((9 <> con_fd Samples.sample_connection)%Z) as Hne
    by (simpl; lia).
  destruct (started_client_serves_only_its_descriptor Samples.sample_netpoll
              Samples.quiet_clientHandlers Samples.idle_clientEnv 3
              Samples.sample_connection zeroOptions 9 1 None [])
    as (_ & H & _).
  split; [exact Hne | exact (H Hne)].
Defined.

(** X17: the loop that [activateReactors] builds has index 0, so for a
    client the [Ticker] option alone decides: its reactor launches one
    ticker thread when the folded options have [Ticker] set and none when
    they have not, and none when no option is given. *)
Theorem client_ticker_follows_the_option
    np (h : clientHandlers) (cenv : ClientEnv) (p : nat) (con : connection)
    (opts : list Opts.Option) (ready : list (Z * Z)) :
  ticker_launches
    (trace_of (Client_activateMainReactor np h ready
                 (started_client cenv p con (initOptions opts)) [])) =
    (if Ticker (initOptions opts) then 1 else 0)
  /\ ticker_launches
       (trace_of (Client_activateMainReactor np h ready
                    (started_client cenv p con (initOptions [])) [])) = 0.
Proof.
  split.
  - rewrite (ticker_count_mainReactor np h ready
               (started_client cenv p con (initOptions opts))
               (mkLoop 0 p
                  (<[con_fd con := newClientConn cenv (con_fd con)]> ∅))
               eq_refl). reflexivity.
  - rewrite (ticker_count_mainReactor np h ready
               (started_client cenv p con (initOptions []))
               (mkLoop 0 p
                  (<[con_fd con := newClientConn cenv (con_fd con)]> ∅))
               eq_refl). reflexivity.
Qed.

Lemma has_event_no_common_bit (ev a b : Z) :
  Z.land ev (Z.lor a b) = 0%Z ->
  has_event ev a = false /\ has_event ev b = false.
Proof.
  intros H. rewrite Z.land_lor_distr_r in H.
  apply Z.lor_eq_0_iff in H. destruct H as [Ha Hb].
  unfold has_event. now rewrite Ha, Hb.
Qed.

(** X18: an event word that shares no bit with [InEvents] or [OutEvents]
    (the word 0, for one) runs no handler, on a worker reactor as on the
    client's reactor, registered descriptor or not, empty outbound buffer
    or not: the callback returns nil and leaves everything as it was. *)
Theorem event_without_relevant_bit_runs_nothing
    np (hs : serverHandlers) (hc : clientHandlers) (lp : loop) (cl : Client)
    (fd ev : Z) (job : option Job) (tr : list event) :
  cl_mainLoop cl = Some lp ->
  Z.land ev (Z.lor (InEvents np) (OutEvents np)) = 0%Z ->
  server_subReactor_callback np hs fd ev job lp tr = Done None lp tr
  /\ Client_mainReactor_callback np hc fd ev job cl tr = Done None cl tr.
Proof.
  intros Hl Hb. destruct (has_event_no_common_bit _ _ _ Hb) as [Hi Ho].
  destruct (connections lp !! fd) as [c|] eqn:Hc.
  - rewrite (subReactor_callback_registered np hs fd ev job lp c tr Hc).
    rewrite (mainReactor_callback_registered np hc fd ev job cl lp c tr Hl Hc).
    rewrite Hi, Ho. now destruct (IsEmpty (outboundBuffer c)).
  - split.
    + now apply subReactor_callback_unregistered.
    + now apply mainReactor_callback_unregistered with lp.
Qed.

Lemma event_without_relevant_bit_runs_nothing_witness :
  let c := Samples.busy_conn in
  let lp := Samples.sample_loop c in
  let cl := Samples.sample_client c in
  let np := Samples.sample_netpoll in
  cl_mainLoop cl = Some lp
  /\ Z.land 64 (Z.lor (InEvents np) (OutEvents np)) = 0%Z
  /\ server_subReactor_callback np Samples.quiet_serverHandlers 7 64 None lp []
     = Done None lp []
  /\ Client_mainReactor_callback np Samples.quiet_clientHandlers 7 64 None cl []
     = Done None cl [].
Proof.
  intros c lp cl np.
  assert (cl_mainLoop cl = Some lp) as Hl by reflexivity.
  assert (Z.land 64 (Z.lor (InEvents np) (OutEvents np)) = 0%Z) as Hb
    by reflexivity.
  destruct (event_without_relevant_bit_runs_nothing np
              Samples.quiet_serverHandlers Samples.quiet_clientHandlers
              lp cl 7 64 None [] Hl Hb) as [H1 H2].
  split; [exact Hl|]. split; [exact Hb|]. split; [exact H1 | exact H2].
Defined.

(** *** When a reactor returns *)

Lemma appends_subReactor_callback_any (P : event -> Prop) np h fd ev job :
  (forall c, P (EvLoopIn c)) -> (forall c, P (EvLoopOut c)) ->
  appends P (server_subReactor_callback np h fd ev job).
Proof.
  intros Hi Ho. unfold server_subReactor_callback.
  apply appends_bind; [apply appends_get|]. intros lp.
  destruct (connections lp !! fd) as [c|]; [|apply appends_ret].
  destruct (IsEmpty (outboundBuffer c));
    [destruct (has_event ev (InEvents np))
    |destruct (has_event ev (OutEvents np))];
    try apply appends_ret; now apply appends_invoke.
Qed.

Lemma appends_mainReactor_callback_any (P : event -> Prop) np h fd ev job :
  (forall c, P (EvLoopClientIn c)) -> (forall c, P (EvLoopClientOut c)) ->
  appends P (Client_mainReactor_callback np h fd ev job).
Proof.
  intros Hi Ho. unfold Client_mainReactor_callback.
  apply appends_bind; [apply appends_get|]. intros cl.
  apply appends_bind; [apply appends_deref|]. intros lp.
  destruct (connections lp !! fd) as [c|]; [|apply appends_ret].
  destruct (IsEmpty (outboundBuffer c));
    [destruct (has_event ev (InEvents np))
    |destruct (has_event ev (OutEvents np))];
    try apply appends_ret; now apply appends_invoke.
Qed.

(** A body that ends under a deferred [emit]. *)
Lemma defer_emit_outcome {S A} (P : event -> Prop) (sig : event)
    (body : M S A) (s : S) (tr : list event) :
  appends P body ->
  match defer (emit sig) body s tr with
  | Done _ _ t | Panicked _ t =>
      exists before, t = tr ++ before ++ [sig] /\ Forall P before
  | Parked _ t => exists new, t = tr ++ new /\ Forall P new
  end.
Proof.
  intros Hb. destruct (Hb s tr) as [new [E F]]. unfold defer.
  destruct (body s tr) as [a s' t|s' t|s' t]; simpl in E; subst t;
    unfold emit; eauto using app_assoc.
Qed.

Lemma server_signals_none new :
  Forall not_server_signal new -> server_signals new = 0.
Proof.
  intros H. unfold server_signals.
  induction H as [|e new He _ IH]; [reflexivity|].
  rewrite filter_cons. unfold not_server_signal in He.
  destruct (decide (is_shutdown_signal e = true)); [congruence | exact IH].
Qed.

Lemma appends_subReactor_body (P : event -> Prop) svr_opts np h ready :
  (forall c, P (EvLoopIn c)) -> (forall c, P (EvLoopOut c)) ->
  (forall i, P (EvGoLoopTicker i)) ->
  appends P
    (lp ← get;
     (if Z.eqb (idx lp) 0 && Ticker svr_opts
      then emit (EvGoLoopTicker (idx lp)) else mret tt);;
     _ ← Polling (server_subReactor_callback np h) ready;
     mret tt).
Proof.
  intros Hi Ho Ht.
  apply appends_bind; [apply appends_get|]. intros lp.
  apply appends_bind.
  - destruct (Z.eqb (idx lp) 0 && Ticker svr_opts);
      [now apply appends_emit | apply appends_ret].
  - intros _. apply appends_bind; [|intros; apply appends_ret].
    apply appends_Polling. intros.
    now apply appends_subReactor_callback_any.
Qed.

(** X19: when a worker reactor or the accept reactor of the server comes
    to an end, by return or by panic, the last thing it has done is to fire
    the shutdown signal of the server, once; while it is blocked in
    [Polling] it has not fired it. *)
Theorem server_reactor_signals_shutdown_when_it_ends
    (svr_opts : Options) np (h : serverHandlers) (ready : list (Z * Z))
    (lp : loop) (tr : list event) :
  match server_activateSubReactor svr_opts np h ready lp tr with
  | Done _ _ t | Panicked _ t =>
      exists before,
        t = tr ++ before ++ [EvServerSignalShutdown]
        /\ server_signals before = 0
  | Parked _ t => exists new, t = tr ++ new /\ server_signals new = 0
  end
  /\ match server_activateMainReactor h ready lp tr with
     | Done _ _ t | Panicked _ t =>
         exists before,
           t = tr ++ before ++ [EvServerSignalShutdown]
           /\ server_signals before = 0
     | Parked _ t => exists new, t = tr ++ new /\ server_signals new = 0
     end.
Proof.
  split.
  - unfold server_activateSubReactor.
    pose proof (defer_emit_outcome not_server_signal EvServerSignalShutdown
                  _ lp tr
                  (appends_subReactor_body not_server_signal svr_opts np h
                     ready ltac:(reflexivity) ltac:(reflexivity)
                     ltac:(reflexivity))) as H.
    destruct (defer _ _ lp tr); destruct H as [x [E F]]; exists x;
      (split; [exact E | now apply server_signals_none]).
  - unfold server_activateMainReactor.
    assert (appends not_server_signal
              (_ ← Polling (server_mainReactor_callback h) ready;
               (mret tt : M loop unit))) as Hb.
    { apply appends_bind; [|intros; apply appends_ret].
      apply appends_Polling. intros. now apply appends_invoke. }
    pose proof (defer_emit_outcome not_server_signal EvServerSignalShutdown
                  _ lp tr Hb) as H.
    destruct (defer _ _ lp tr); destruct H as [x [E F]]; exists x;
      (split; [exact E | now apply server_signals_none]).
Qed.

(** [Polling] that has ended on some ready descriptors ends the same way
    when more descriptors are ready after them. *)
Lemma Polling_ended_prefix {S}
    (callback : Z -> Z -> option Job -> M S (option error))
    ready rest s tr e s' t :
  Polling callback ready s tr = Done e s' t ->
  Polling callback (ready ++ rest) s tr = Done e s' t.
Proof.
  revert s tr. induction ready as [|[fd ev] ready IH]; intros s tr H.
  - discriminate H.
  - simpl in H |- *. unfold mbind, M_bind in H |- *.
    destruct (callback fd ev None s tr) as [[err|] s1 t1| |];
      try discriminate H; [exact H | now apply IH].
Qed.

Lemma defer_Polling_ended_prefix {S} (d : M S unit)
    (callback : Z -> Z -> option Job -> M S (option error))
    ready rest s tr s' t :
  defer d (_ ← Polling callback ready; mret tt) s tr = Done tt s' t ->
  defer d (_ ← Polling callback (ready ++ rest); mret tt) s tr = Done tt s' t.
Proof.
  unfold defer, mbind, M_bind. intros H.
  destruct (Polling callback ready s tr) as [e s1 t1|s1 t1|s1 t1] eqn:E.
  - now rewrite (Polling_ended_prefix _ _ rest _ _ _ _ _ E).
  - discriminate H.
  - destruct (d s1 t1); discriminate H.
Qed.

(** X20: once a reactor has returned on the descriptors that were ready,
    descriptors that become ready later change nothing: they are not
    dispatched, and the reactor has returned with the same state and the
    same trace. *)
Theorem reactor_that_returned_dispatches_no_more
    (svr_opts : Options) np (hs : serverHandlers) (hc : clientHandlers)
    (ready rest : list (Z * Z)) (lp lp' mainLoop : loop) (cl cl' : Client)
    (tr t : list event) :
  cl_mainLoop cl = Some mainLoop ->
  (server_activateSubReactor svr_opts np hs ready lp tr = Done tt lp' t ->
   server_activateSubReactor svr_opts np hs (ready ++ rest) lp tr =
     Done tt lp' t)
  /\ (server_activateMainReactor hs ready lp tr = Done tt lp' t ->
      server_activateMainReactor hs (ready ++ rest) lp tr = Done tt lp' t)
  /\ (Client_activateMainReactor np hc ready cl tr = Done tt cl' t ->
      Client_activateMainReactor np hc (ready ++ rest) cl tr = Done tt cl' t).
Proof.
  intros Hl. split; [|split].
  - rewrite !subReactor_ticker_then_polling.
    apply defer_Polling_ended_prefix.
  - unfold server_activateMainReactor. apply defer_Polling_ended_prefix.
  - rewrite !(mainReactor_ticker_then_polling np hc _ cl mainLoop tr Hl).
    apply defer_Polling_ended_prefix.
Qed.

Lemma reactor_that_returned_dispatches_no_more_witness :
  let lp := Samples.empty_loop in
  let cl := Samples.sample_client Samples.idle_conn in
  cl_mainLoop cl = Some (Samples.sample_loop Samples.idle_conn)
  /\ server_activateMainReactor Samples.failing_accept [(5%Z, 1%Z)] lp [] =
     Done tt lp [EvAcceptNewConnection 5; EvServerSignalShutdown]
  /\ server_activateMainReactor Samples.failing_accept
       ([(5%Z, 1%Z)] ++ [(6%Z, 1%Z); (5%Z, 1%Z)]) lp [] =
     Done tt lp [EvAcceptNewConnection 5; EvServerSignalShutdown].
Proof.
  intros lp cl.
  assert (cl_mainLoop cl = Some (Samples.sample_loop Samples.idle_conn))
    as Hl by reflexivity.
  assert (server_activateMainReactor Samples.failing_accept [(5%Z, 1%Z)] lp []
          = Done tt lp [EvAcceptNewConnection 5; EvServerSignalShutdown])
    as H by reflexivity.
  destruct (reactor_that_returned_dispatches_no_more zeroOptions
              Samples.sample_netpoll Samples.failing_accept
              Samples.quiet_clientHandlers [(5%Z, 1%Z)]
              [(6%Z, 1%Z); (5%Z, 1%Z)] lp lp
              (Samples.sample_loop Samples.idle_conn) cl cl []
              [EvAcceptNewConnection 5; EvServerSignalShutdown] Hl)
    as (_ & H2 & _).
  split; [exact Hl|]. split; [exact H | exact (H2 H)].
Defined.

(** *** Handlers that never fail *)

Lemma invoke_never_fails {S} (e : event) (f : S -> S * option error) s tr :
  snd (f s) = None ->
  exists s', invoke e f s tr = Done None s' (tr ++ [e]).
Proof.
  intros H. unfold invoke, act, mbind, M_bind, emit.
  destruct (f s) as [s' r]. simpl in H. subst r. eauto.
Qed.

Lemma subReactor_callback_never_fails np h fd ev job (lp : loop) tr :
  never_fails (loopIn h) -> never_fails (loopOut h) ->
  exists lp' t, server_subReactor_callback np h fd ev job lp tr = Done None lp' t.
Proof.
  intros Hi Ho. unfold server_subReactor_callback.
  rewrite (bind_Done get _ lp tr lp lp tr eq_refl).
  destruct (connections lp !! fd) as [c|]; [|unfold mret, M_ret; eauto].
  destruct (IsEmpty (outboundBuffer c));
    [destruct (has_event ev (InEvents np))
    |destruct (has_event ev (OutEvents np))];
    try (unfold mret, M_ret; eauto; fail).
  - destruct (invoke_never_fails (EvLoopIn c) (loopIn h c) lp tr (Hi c lp)).
    eauto.
  - destruct (invoke_never_fails (EvLoopOut c) (loopOut h c) lp tr (Ho c lp)).
    eauto.
Qed.

(** [Polling] does not end while the callback returns nil. *)
Lemma Polling_keeps_waiting {S}
    (callback : Z -> Z -> option Job -> M S (option error)) ready :
  (forall fd ev s tr, exists s' t, callback fd ev None s tr = Done None s' t) ->
  forall s tr, exists s' t, Polling callback ready s tr = Parked s' t.
Proof.
  intros H. induction ready as [|[fd ev] ready IH]; intros s tr; simpl.
  - unfold park. eauto.
  - destruct (H fd ev s tr) as (s1 & t1 & E).
    rewrite (bind_Done _ _ _ _ _ _ _ E). apply IH.
Qed.

Lemma subReactor_end_shape svr_opts np h ready (lp : loop) tr :
  match server_activateSubReactor svr_opts np h ready lp tr with
  | Done _ _ t | Panicked _ t =>
      exists before,
        t = tr ++ before ++ [EvServerSignalShutdown]
        /\ Forall not_server_signal before
  | Parked _ t => exists new, t = tr ++ new /\ Forall not_server_signal new
  end.
Proof.
  unfold server_activateSubReactor.
  apply (defer_emit_outcome not_server_signal EvServerSignalShutdown).
  apply appends_subReactor_body; reflexivity.
Qed.

(** X21: on readiness events alone (no injected job), a worker reactor
    whose handlers never return an error does not come to an end and does
    not fire the shutdown signal, however many descriptors become ready: it
    stays in [Polling]. *)
Theorem worker_reactor_keeps_polling_while_handlers_succeed
    (svr_opts : Options) np (h : serverHandlers) (ready : list (Z * Z))
    (lp : loop) (tr : list event) :
  never_fails (loopIn h) -> never_fails (loopOut h) ->
  exists lp' new,
    server_activateSubReactor svr_opts np h ready lp tr =
      Parked lp' (tr ++ new)
    /\ server_signals new = 0.
Proof.
  intros Hi Ho.
  pose proof (subReactor_end_shape svr_opts np h ready lp tr) as Hs.
  assert (exists lp' t,
            server_activateSubReactor svr_opts np h ready lp tr = Parked lp' t)
    as (lp' & t & E).
  { rewrite subReactor_ticker_then_polling.
    destruct (Polling_keeps_waiting (server_subReactor_callback np h) ready
                (fun fd ev s t =>
                   subReactor_callback_never_fails np h fd ev None s t Hi Ho)
                lp (tr ++ (if Z.eqb (idx lp) 0 && Ticker svr_opts
                           then [EvGoLoopTicker (idx lp)] else [])))
      as (s' & t' & E).
    unfold defer. rewrite (bind_Parked _ _ _ _ _ _ E). eauto. }
  rewrite E in Hs |- *. destruct Hs as (new & -> & F).
  exists lp', new. split; [reflexivity | now apply server_signals_none].
Qed.

Lemma worker_reactor_keeps_polling_while_handlers_succeed_witness :
  let c := Samples.idle_conn in
  let lp := Samples.sample_loop c in
  never_fails (loopIn Samples.quiet_serverHandlers)
  /\ never_fails (loopOut Samples.quiet_serverHandlers)
  /\ exists lp' new,
       server_activateSubReactor (WithTicker true zeroOptions)
         Samples.sample_netpoll Samples.quiet_serverHandlers
         [(7%Z, 1%Z); (7%Z, 1%Z)] lp [] = Parked lp' ([] ++ new)
       /\ server_signals new = 0.
Proof.
  intros c lp.
  assert (never_fails (loopIn Samples.quiet_serverHandlers)) as Hi
    by (intros ? ?; reflexivity).
  assert (never_fails (loopOut Samples.quiet_serverHandlers)) as Ho
    by (intros ? ?; reflexivity).
  split; [exact Hi|]. split; [exact Ho|].
  exact (worker_reactor_keeps_polling_while_handlers_succeed
           (WithTicker true zeroOptions) Samples.sample_netpoll
           Samples.quiet_serverHandlers [(7%Z, 1%Z); (7%Z, 1%Z)] lp [] Hi Ho).
Defined.

(** *** The reactor of the client and the shutdown signal *)

Lemma cond_signals_none new :
  Forall not_cond_signal new -> cond_signals new = 0.
Proof.
  intros H. unfold cond_signals.
  induction H as [|e new He _ IH]; [reflexivity|].
  rewrite filter_cons. unfold not_cond_signal in He.
  destruct (decide (is_signal e = true)); [congruence | exact IH].
Qed.

Lemma signalShutdown_post (cl : Client) tr :
  exists cl' new,
    Client_signalShutdown cl tr = Done tt cl' (tr ++ new)
    /\ cl_once cl' = true /\ cond_signals new <= 1.
Proof.
  destruct (cl_once cl) eqn:Ho.
  - exists cl, []. rewrite (signalShutdown_again cl tr Ho), app_nil_r.
    split; [reflexivity|]. split; [exact Ho | vm_compute; lia].
  - exists (set_once cl), signal_body.
    rewrite (signalShutdown_first cl tr Ho).
    split; [reflexivity|]. split; [reflexivity | vm_compute; lia].
Qed.

Lemma appends_mainReactor_body np h ready :
  appends not_cond_signal
    (cl ← get;
     mainLoop ← deref (cl_mainLoop cl);
     (if Z.eqb (idx mainLoop) 0 && Ticker (cl_opts cl)
      then emit (EvGoLoopTicker (idx mainLoop)) else mret tt);;
     _ ← Polling (Client_mainReactor_callback np h) ready;
     mret tt).
Proof.
  apply appends_bind; [apply appends_get|]. intros cl.
  apply appends_bind; [apply appends_deref|]. intros lp.
  apply appends_bind.
  - destruct (Z.eqb (idx lp) 0 && Ticker (cl_opts cl));
      [now apply appends_emit | apply appends_ret].
  - intros _. apply appends_bind; [|intros; apply appends_ret].
    apply appends_Polling. intros.
    now apply appends_mainReactor_callback_any.
Qed.

(** X22: the reactor of the client signals the condition variable at most
    once; when it has come to an end, by return or by panic, the [Once] of
    the client is set, so that shutdown has been signalled by then; while
    it is blocked in [Polling] it has signalled nothing. *)
Theorem client_reactor_signals_shutdown_at_most_once
    np (h : clientHandlers) (ready : list (Z * Z)) (cl : Client)
    (tr : list event) :
  match Client_activateMainReactor np h ready cl tr with
  | Done _ cl' t | Panicked cl' t =>
      cl_once cl' = true /\ cond_signals t <= cond_signals tr + 1
  | Parked _ t => cond_signals t = cond_signals tr
  end.
Proof.
  unfold Client_activateMainReactor, defer.
  destruct (appends_mainReactor_body np h ready cl tr) as (new & E & F).
  match goal with
  | |- context [match ?b cl tr with _ => _ end] =>
      destruct (b cl tr) as [a s' t|s' t|s' t]
  end; simpl in E; subst t.
  - destruct (signalShutdown_post s' (tr ++ new)) as (cl' & n2 & -> & Ho & Hc).
    split; [exact Ho|].
    rewrite !cond_signals_app, (cond_signals_none _ F). lia.
  - now rewrite cond_signals_app, (cond_signals_none _ F).
  - destruct (signalShutdown_post s' (tr ++ new)) as (cl' & n2 & -> & Ho & Hc).
    split; [exact Ho|].
    rewrite !cond_signals_app, (cond_signals_none _ F). lia.
Qed.

End ReactorMore.
